(** * scrape_weather.py: weather-model image scraper

    A shallow embedding of [scrape_weather.py] and the properties of its
    location processor ([scrape_and_save]), its site extractors and its
    driver ([__main__]).

    The script talks to three things outside itself: a file system, the
    error stream, and a headless browser with the network behind it.  The
    first two are modelled concretely (a finite map from paths to nodes, a
    list of writes); the browser, the network and the image codec are the
    methods of a type class, so that every theorem holds whatever the web
    sites answer. *)

From Stdlib Require Import ZArith String Ascii List Lia.
From Stdlib.Strings Require Import Byte.
From stdpp Require Import base option gmap strings list.

Local Open Scope Z_scope.

(** ** Python strings *)

Module Str.

(** [s.startswith(pre)] *)
Fixpoint startswith (s pre : string) {struct pre} : bool :=
  match pre, s with
  | EmptyString, _ => true
  | String _ _, EmptyString => false
  | String a pre', String b s' =>
      if Ascii.eqb a b then startswith s' pre' else false
  end.

(** [sub in s] on two [str]: [sub] occurs in [s] as a contiguous run. *)
Fixpoint contains (sub s : string) : bool :=
  startswith s sub ||
  match s with
  | EmptyString => false
  | String _ s' => contains sub s'
  end.

(** [s.endswith('/')] *)
Fixpoint endswith_sep (s : string) : bool :=
  match s with
  | EmptyString => false
  | String c EmptyString => Ascii.eqb c "/"
  | String _ s' => endswith_sep s'
  end.

(** ['\n'] *)
Definition newline : string := String (ascii_of_nat 10) EmptyString.

(** What the boolean tests decide. *)
Definition is_prefix (pre s : string) : Prop := ∃ post, s = pre +:+ post.
Definition occurs_in (sub s : string) : Prop :=
  ∃ before after, s = before +:+ sub +:+ after.

End Str.

(** [os.path.join(a, b)] of [posixpath], for two arguments. *)
Definition path_join (a b : string) : string :=
  if Str.startswith b "/" then b
  else if bool_decide (a = EmptyString) || Str.endswith_sep a then a +:+ b
  else a +:+ "/" +:+ b.

(** ** Facts about strings *)

Section string_facts.

Lemma startswith_is_prefix s pre :
  Str.startswith s pre = true ↔ Str.is_prefix pre s.
Proof.
  revert s. induction pre as [|a pre IH]; intros s; simpl.
  - split; [intros _; by exists s | done].
  - destruct s as [|b s].
    + split; [done | intros [post Hp]; discriminate Hp].
    + destruct (Ascii.eqb_spec a b) as [->|Hne].
      * rewrite IH. split.
        -- intros [post ->]. by exists post.
        -- intros [post Hp]. injection Hp as ->. by exists post.
      * split; [done | intros [post Hp]]. injection Hp as Hab _.
        by destruct Hne.
Qed.

Lemma contains_occurs_in sub s :
  Str.contains sub s = true ↔ Str.occurs_in sub s.
Proof.
  induction s as [|c s IH]; simpl.
  - rewrite orb_false_r, startswith_is_prefix. split.
    + intros [post Hp]. exists EmptyString, post. exact Hp.
    + intros [[|b before] [after Hs]]; [by exists after |]. discriminate Hs.
  - rewrite orb_true_iff, startswith_is_prefix, IH. split.
    + intros [[post Hp] | (before & after & ->)].
      * exists EmptyString, post. exact Hp.
      * by exists (String c before), after.
    + intros [[|b before] [after Hs]].
      * left. by exists after.
      * right. injection Hs as -> ->. by exists before, after.
Qed.

Lemma contains_false_iff sub s :
  Str.contains sub s = false ↔ ¬ Str.occurs_in sub s.
Proof.
  rewrite <- contains_occurs_in. by destruct (Str.contains sub s).
Qed.

Lemma string_app_length (a b : string) :
  String.length (a +:+ b) = (String.length a + String.length b)%nat.
Proof. induction a as [|c a IH]; simpl; [done | by rewrite IH]. Qed.

Lemma string_app_inj_l (a b c : string) : a +:+ b = a +:+ c → b = c.
Proof.
  induction a as [|x a IH]; simpl; [done |]. intros H. injection H as H. auto.
Qed.

End string_facts.

(** ** Data model *)

Abbreviation bytes := (list byte).

(** A configured location: [location['name']] and [location['urls']]. *)
Record location := { name : string; urls : list string }.

(** What the script reads of a [PIL.Image] opened from a file: its size (and
    the pixel data, which it only passes on). *)
Record image := { width : Z; height : Z; pixels : bytes }.

(** The image under construction: [Image.new(mode, size, color)] followed by
    the [paste(image, box)] calls made on it, in call order. *)
Record canvas := {
  mode : string;
  size : Z * Z;
  color : string;
  pastes : list (image * (Z * Z));
}.

(** The exceptions the script can meet.  [OtherError] stands for whatever
    else a library raises (a [WebDriverException], a [URLError], ...). *)
Inductive exn :=
  | NoSuchElementException
  | TimeoutException
  | TypeError
  | ValueError
  | FileExistsError
  | FileNotFoundError
  | NotADirectoryError
  | IsADirectoryError
  | UnidentifiedImageError
  | OtherError (what : string).

(** Selenium's [By] locators used by the script. *)
Inductive By := By_ID | By_CLASS_NAME.

(** ** The file system

    A finite map from paths, as the script writes them, to nodes.  Paths are
    compared as written: no symbolic links, and no normalisation of [.],
    [..] or repeated separators. *)

Inductive node := Dir | File (data : bytes).

Module Fs.

(** [p] lies strictly below directory [d]. *)
Definition below (d p : string) : bool :=
  Str.startswith p (if Str.endswith_sep d then d else d +:+ "/") &&
  negb (bool_decide (p = d)).

(** [p] is [d] or lies below it: what [shutil.rmtree(d)] removes. *)
Definition within (d p : string) : bool := bool_decide (p = d) || below d p.

(** The directories [os.makedirs(p)] creates on the way when they are
    missing: every prefix of [p] that is followed by a separator and does not
    end in one.  [seen] is the prefix already read. *)
Fixpoint ancestors_from (seen p : string) : list string :=
  match p with
  | EmptyString => []
  | String c p' =>
      (if Ascii.eqb c "/" && negb (bool_decide (seen = EmptyString))
          && negb (Str.endswith_sep seen)
       then [seen] else [])
      ++ ancestors_from (seen +:+ String c EmptyString) p'
  end.

Definition ancestors (p : string) : list string := ancestors_from EmptyString p.

Definition is_file (fs : gmap string node) (p : string) : bool :=
  match fs !! p with Some (File _) => true | _ => false end.

Definition mkdir_missing (fs : gmap string node) (p : string) : gmap string node :=
  match fs !! p with Some _ => fs | None => <[p := Dir]> fs end.

(** [os.makedirs(p)] with [exist_ok=False]: the path itself must be new; an
    ancestor that exists is left as it is. *)
Definition makedirs (p : string) (fs : gmap string node) : exn + gmap string node :=
  match fs !! p with
  | Some _ => inl FileExistsError
  | None => inr (<[p := Dir]> (foldl mkdir_missing fs (ancestors p)))
  end.

(** [shutil.rmtree(p)] *)
Definition rmtree (p : string) (fs : gmap string node) : exn + gmap string node :=
  match fs !! p with
  | Some Dir => inr (filter (λ kv, within p kv.1 = false) fs)
  | Some (File _) => inl NotADirectoryError
  | None => inl FileNotFoundError
  end.

(** [open(p, 'wb').write(data)]: creates or truncates the file. *)
Definition write (p : string) (data : bytes) (fs : gmap string node)
  : exn + gmap string node :=
  match fs !! p with
  | Some Dir => inl IsADirectoryError
  | _ => inr (<[p := File data]> fs)
  end.

(** [open(p, 'rb').read()] *)
Definition read (p : string) (fs : gmap string node) : exn + bytes :=
  match fs !! p with
  | Some (File data) => inr data
  | Some Dir => inl IsADirectoryError
  | None => inl FileNotFoundError
  end.

End Fs.

(** ** The world outside the script

    The browser session with the pages and the network behind it ([env]),
    the YAML parser and the PNG codec.  Each call returns a value or raises,
    and leaves the environment in a new state.  [poll_budget timeout] is the
    number of further polls [WebDriverWait.until] makes after the first one
    before [timeout] seconds have passed. *)
Class Platform := {
  env : Type;
  element : Type;
  webdriver_Firefox : env → (exn + unit) * env;
  browser_get : string → env → (exn + unit) * env;
  find_element : By * string → env → (exn + element) * env;
  element_click : element → env → (exn + unit) * env;
  get_attribute : element → string → env → (exn + option string) * env;
  screenshot_as_png : element → env → (exn + bytes) * env;
  urlopen_read : option string → env → (exn + bytes) * env;
  browser_quit : env → (exn + unit) * env;
  time_sleep : env → env;
  poll_budget : Z → nat;
  yaml_safe_load : bytes → exn + list location;
  png_decode : bytes → option image;
  png_encode : canvas → bytes;
}.

(** ** The script *)

Section script.

Context `{P : Platform}.

(** The state a run threads through: the file system, what was written to
    [sys.stderr] (one entry per [write] call), and the environment. *)
Record world := {
  w_fs : gmap string node;
  w_stderr : list string;
  w_env : env;
}.

Definition set_fs (fs : gmap string node) (w : world) : world :=
  {| w_fs := fs; w_stderr := w_stderr w; w_env := w_env w |}.
Definition set_env (e : env) (w : world) : world :=
  {| w_fs := w_fs w; w_stderr := w_stderr w; w_env := e |}.

(** A statement either completes with a value or raises; either way it
    leaves a world behind. *)
Inductive outcome (A : Type) :=
  | Ok (a : A) (w : world)
  | Raise (e : exn) (w : world).
Arguments Ok {A} a w.
Arguments Raise {A} e w.

Definition M (A : Type) : Type := world → outcome A.

Definition ret {A} (a : A) : M A := λ w, Ok a w.
Definition raise {A} (e : exn) : M A := λ w, Raise e w.
Definition bind {A B} (m : M A) (k : A → M B) : M B :=
  λ w, match m w with
       | Ok a w' => k a w'
       | Raise e w' => Raise e w'
       end.

Notation "'do' x <- m ; k" := (bind m (λ x, k))
  (at level 10, x pattern, m at level 100, k at level 200).

(** A call into the environment. *)
Definition call {A} (f : env → (exn + A) * env) : M A :=
  λ w, match f (w_env w) with
       | (inr a, e') => Ok a (set_env e' w)
       | (inl x, e') => Raise x (set_env e' w)
       end.

(** A call into the file system that changes it, and one that reads it. *)
Definition fs_update (f : gmap string node → exn + gmap string node) : M unit :=
  λ w, match f (w_fs w) with
       | inr fs' => Ok tt (set_fs fs' w)
       | inl x => Raise x w
       end.
Definition fs_query {A} (f : gmap string node → exn + A) : M A :=
  λ w, match f (w_fs w) with
       | inr a => Ok a w
       | inl x => Raise x w
       end.

Definition os_makedirs (p : string) : M unit := fs_update (Fs.makedirs p).
Definition shutil_rmtree (p : string) : M unit := fs_update (Fs.rmtree p).
Definition os_path_exists (p : string) : M bool :=
  λ w, Ok (bool_decide (is_Some (w_fs w !! p))) w.
Definition write_file (p : string) (data : bytes) : M unit :=
  fs_update (Fs.write p data).
Definition read_file (p : string) : M bytes := fs_query (Fs.read p).

(** [sys.stderr.write(s)] *)
Definition stderr_write (s : string) : M unit :=
  λ w, Ok tt {| w_fs := w_fs w; w_stderr := w_stderr w ++ [s]; w_env := w_env w |}.

(** [max(xs)] raises [ValueError] on an empty sequence; [sum(xs)]. *)
Definition py_max (xs : list Z) : M Z :=
  match xs with
  | [] => raise ValueError
  | x :: xs' => ret (foldl Z.max x xs')
  end.
Definition py_sum (xs : list Z) : Z := foldl Z.add 0 xs.

(** *** PIL *)

(** [Image.open(p)]: reads the file's header, hence its size. *)
Definition Image_open (p : string) : M image :=
  do data <- read_file p;
  match png_decode data with
  | Some img => ret img
  | None => raise UnidentifiedImageError
  end.

(** [Image.new(mode, size, color)] refuses a negative width or height. *)
Definition Image_new (mode : string) (size : Z * Z) (color : string) : M canvas :=
  if (size.1 <? 0) || (size.2 <? 0) then raise ValueError
  else ret {| mode := mode; size := size; color := color; pastes := [] |}.

(** [im.paste(image, box)] *)
Definition paste (im : canvas) (img : image) (box : Z * Z) : canvas :=
  {| mode := mode im; size := size im; color := color im;
     pastes := pastes im ++ [(img, box)] |}.

(** [im.save(p)] *)
Definition Image_save (im : canvas) (p : string) : M unit :=
  write_file p (png_encode im).

(** *** Selenium *)

Definition find_element_by_id (id : string) : M element :=
  call (find_element (By_ID, id)).
Definition find_element_by_class_name (cls : string) : M element :=
  call (find_element (By_CLASS_NAME, cls)).

(** [WebDriverWait(browser, timeout).until(method)]: polls [method] until it
    returns a true value; a [NoSuchElementException] raised by [method] counts
    as not yet (it is the wait's default ignored exception), any other
    exception passes through; [TimeoutException] when time is up. *)
Fixpoint until_loop (polls : nat) (method : M bool) : M bool :=
  λ w,
    let again w' :=
      let w'' := set_env (time_sleep (w_env w')) w' in
      match polls with
      | O => Raise TimeoutException w''
      | S polls' => until_loop polls' method w''
      end in
    match method w with
    | Ok true w' => Ok true w'
    | Ok false w' => again w'
    | Raise NoSuchElementException w' => again w'
    | Raise e w' => Raise e w'
    end.

Definition WebDriverWait_until (timeout : Z) (method : M bool) : M bool :=
  until_loop (poll_budget timeout) method.

(** [Element_has_css_class(locator, css_class).__call__(driver)] *)
Definition Element_has_css_class (locator : By * string) (css_class : string)
  : M bool :=
  do element <- call (find_element locator);
  do cls <- call (get_attribute element "class");
  match cls with
  | Some cls => ret (Str.contains css_class cls)
  | None => raise TypeError
  end.

(** *** Site extractors *)

(** [scrape_meteoblue(browser, url)] *)
Definition scrape_meteoblue (url : string) : M bytes :=
  do _ <- call (browser_get url);
  do _ <- (λ w,
        match find_element_by_id "accept_all_cookies" w with
        | Raise NoSuchElementException w' => Ok tt w'
        | Raise e w' => Raise e w'
        | Ok element w' => call (element_click element) w'
        end);
  do _ <- WebDriverWait_until 10
       (Element_has_css_class (By_CLASS_NAME, "image_lazyload") "loaded");
  do image <- find_element_by_class_name "image_lazyload";
  do image_url <- call (get_attribute image "src");
  call (urlopen_read image_url).

(** [scrape_yr(browser, url)] *)
Definition scrape_yr (url : string) : M bytes :=
  do _ <- call (browser_get url);
  do graph <- find_element_by_class_name "detailed-graph__main";
  call (screenshot_as_png graph).

(** [scrape_shmu(browser, url)] *)
Definition scrape_shmu (url : string) : M bytes :=
  do _ <- call (browser_get url);
  do area <- find_element_by_id "imageArea";
  call (screenshot_as_png area).

(** *** Location processor *)

Definition FILE_DIR : string := "./weather".

(** The body of the loop over [urls] up to the [continue]: which extractor
    runs and under which file name its image goes; [None] after the warning
    for a URL of no known site. *)
Definition scrape_site (url : string) : M (option (bytes * string)) :=
  if Str.contains "meteoblue.com" url then
    do image <- scrape_meteoblue url;
    ret (Some (image, "meteoblue"))
  else if Str.contains "yr.no" url then
    do image <- scrape_yr url;
    ret (Some (image, "yr"))
  else if Str.contains "shmu.sk" url then
    do image <- scrape_shmu url;
    ret (Some (image,
               if Str.contains "mgram10" url then "shmu_ecmwf" else "shmu_aladin"))
  else
    do _ <- stderr_write ("Unknown website: " +:+ url +:+ Str.newline);
    ret None.

(** [for url in urls: ...], with [scraped_images] as built so far. *)
Fixpoint scrape_loop (dest_dir : string) (urls : list string)
    (scraped_images : list string) : M (list string) :=
  match urls with
  | [] => ret scraped_images
  | url :: urls' =>
      do r <- scrape_site url;
      match r with
      | None => scrape_loop dest_dir urls' scraped_images
      | Some (image, file_name) =>
          let file_name := path_join dest_dir (file_name +:+ ".png") in
          do _ <- write_file file_name image;
          scrape_loop dest_dir urls' (scraped_images ++ [file_name])
      end
  end.

(** [[Image.open(img) for img in scraped_images]] *)
Fixpoint open_all (scraped_images : list string) : M (list image) :=
  match scraped_images with
  | [] => ret []
  | img :: rest =>
      do image <- Image_open img;
      do images <- open_all rest;
      ret (image :: images)
  end.

(** [for image in images: ...] pasting, from the given [vertical_offset]. *)
Fixpoint paste_loop (max_width image_spacing : Z) (images : list image)
    (combined_image : canvas) (vertical_offset : Z) : canvas :=
  match images with
  | [] => combined_image
  | image :: images' =>
      let horizontal_offset := (max_width - width image) `div` 2 in
      paste_loop max_width image_spacing images'
        (paste combined_image image (horizontal_offset, vertical_offset))
        (vertical_offset + (height image + image_spacing))
  end.

(** Lines 114 to 128: join the saved images into one. *)
Definition combine_images (scraped_images : list string) : M canvas :=
  do images <- open_all scraped_images;
  do max_width <- py_max (width <$> images);
  let total_height := py_sum (height <$> images) in
  let image_spacing := 100 in
  do combined_image <-
    Image_new "RGBA"
      (max_width, total_height + image_spacing * Z.of_nat (length images)) "white";
  ret (paste_loop max_width image_spacing images combined_image 0).

(** [scrape_and_save(browser, location, urls)] *)
Definition scrape_and_save (location : string) (urls : list string) : M unit :=
  let dest_dir := path_join FILE_DIR location in
  do _ <- os_makedirs dest_dir;
  do scraped_images <- scrape_loop dest_dir urls [];
  do combined_image <- combine_images scraped_images;
  Image_save combined_image (path_join dest_dir "all.png").

(** *** Driver *)

(** [for location in locations: scrape_and_save(...)] *)
Fixpoint for_locations (locations : list location) : M unit :=
  match locations with
  | [] => ret tt
  | location :: rest =>
      do _ <- scrape_and_save (name location) (urls location);
      for_locations rest
  end.

(** Lines 137 to 140: remove previous scraped data, create a new empty
    directory. *)
Definition reset_output : M unit :=
  do present <- os_path_exists FILE_DIR;
  do _ <- (if present : bool then shutil_rmtree FILE_DIR else ret tt);
  os_makedirs FILE_DIR.

(** The [__main__] block. *)
Definition main : M unit :=
  do config <- read_file "weather_config.yml";
  do locations <- (λ w, match yaml_safe_load config with
                        | inr locations => Ok locations w
                        | inl e => Raise e w
                        end);
  do _ <- reset_output;
  do _ <- call webdriver_Firefox;
  do _ <- for_locations locations;
  call browser_quit.

End script.

Arguments Ok {P A} a w.
Arguments Raise {P A} e w.

(** ** A small platform to run the script on

    A browser whose pages answer by a few fixed rules, and a two-byte image
    format (width, height).  The properties below hold on every platform;
    this one serves to run the script on concrete inputs. *)

Module Demo.

(** The page shown and the polls elapsed since it was requested. *)
Definition demo_env : Type := string * nat.

Definition byte_of_Z (n : Z) : byte :=
  default x00 (Byte.of_N (Z.to_N (n `mod` 256))).

(** The model image a page offers: five by one on a URL with [wide] in it,
    three by two elsewhere. *)
Definition picture (url : string) : bytes :=
  if Str.contains "wide" url then [x05; x01] else [x03; x02].

Definition demo_decode (data : bytes) : option image :=
  match data with
  | [w; h] => Some {| width := Z.of_N (Byte.to_N w);
                      height := Z.of_N (Byte.to_N h);
                      pixels := [] |}
  | _ => None
  end.

Definition demo_encode (im : canvas) : bytes :=
  [byte_of_Z (size im).1; byte_of_Z (size im).2].

(** The cookie banner shows on a URL with [first-visit] in it; the lazily
    loaded image is in the page from the first poll on and has finished
    loading from the second (never on a URL with [stalled] in it); the graph
    panel is missing on a URL with [no-graph] in it. *)
Definition demo_find (locator : By * string) (e : demo_env)
  : (exn + string) * demo_env :=
  let found :=
    match locator with
    | (By_ID, "accept_all_cookies") => Str.contains "first-visit" e.1
    | (By_CLASS_NAME, "image_lazyload") => bool_decide (1 ≤ e.2)%nat
    | (By_CLASS_NAME, "detailed-graph__main") => negb (Str.contains "no-graph" e.1)
    | (By_ID, "imageArea") => true
    | _ => false
    end in
  (if found then inr locator.2 else inl NoSuchElementException, e).

Definition demo_attribute (el attr : string) (e : demo_env)
  : (exn + option string) * demo_env :=
  (inr (if String.eqb el "image_lazyload" then
          if String.eqb attr "class" then
            Some (if bool_decide (2 ≤ e.2)%nat && negb (Str.contains "stalled" e.1)
                  then "image_lazyload loaded" else "image_lazyload")
          else if String.eqb attr "src" then Some (e.1 +:+ "/model.png")
          else None
        else None), e).

Definition demo_urlopen (url : option string) (e : demo_env)
  : (exn + bytes) * demo_env :=
  (match url with
   | Some url => inr (picture url)
   | None => inl (OtherError "urlopen")
   end, e).

(** The configuration file's first byte picks one of four configurations. *)
Definition demo_yaml (data : bytes) : exn + list location :=
  match data with
  | x01 :: _ =>
      inr [ {| name := "test";
               urls := ["https://www.yr.no/en/graph/x";
                        "https://www.shmu.sk/?page=1&mgram10"] |} ]
  | x02 :: _ =>
      inr [ {| name := "peak";
               urls := ["https://www.meteoblue.com/wide";
                        "https://www.meteoblue.com/valley"] |} ]
  | x03 :: _ =>
      inr [ {| name := "nowhere"; urls := ["https://example.org/a"] |};
            {| name := "test"; urls := ["https://www.yr.no/en/graph/x"] |} ]
  | x04 :: _ =>
      inr [ {| name := "ridge";
               urls := ["https://www.yr.no/en/graph/x";
                        "https://www.meteoblue.com/stalled"] |};
            {| name := "test"; urls := ["https://www.yr.no/en/graph/x"] |} ]
  | _ => inl (OtherError "YAMLError")
  end.

#[export] Instance demo : Platform := {|
  env := demo_env;
  element := string;
  webdriver_Firefox e := (inr tt, e);
  browser_get url e := (inr tt, (url, O));
  find_element := demo_find;
  element_click el e := (inr tt, e);
  get_attribute := demo_attribute;
  screenshot_as_png el e := (inr (picture e.1), e);
  urlopen_read := demo_urlopen;
  browser_quit e := (inr tt, e);
  time_sleep e := (e.1, S e.2);
  poll_budget timeout := Z.to_nat (2 * timeout);
  yaml_safe_load := demo_yaml;
  png_decode := demo_decode;
  png_encode := demo_encode;
|}.

(** An empty disk but for the configuration file, nothing on the error
    stream, a browser showing no page. *)
Definition start (config : bytes) : world :=
  {| w_fs := {[ "weather_config.yml" := File config ]};
     w_stderr := [];
     w_env := (EmptyString, O) |}.

End Demo.

(** ** Reasoning about runs *)

Section runs.

Context `{P : Platform}.

(** The world an outcome leaves behind. *)
Definition world_of {A} (o : outcome A) : world :=
  match o with Ok _ w => w | Raise _ w => w end.

Lemma bind_ok {A B} (m : M A) (k : A → M B) w a w1 :
  m w = Ok a w1 → bind m k w = k a w1.
Proof. unfold bind. by intros ->. Qed.

Lemma bind_raise {A B} (m : M A) (k : A → M B) w e w' :
  m w = Raise e w' → bind m k w = Raise e w'.
Proof. unfold bind. by intros ->. Qed.

Lemma bind_Ok_inv {A B} (m : M A) (k : A → M B) w b w' :
  bind m k w = Ok b w' → ∃ a w1, m w = Ok a w1 ∧ k a w1 = Ok b w'.
Proof. unfold bind. destruct (m w) as [a w1|e w1]; [eauto | done]. Qed.

Lemma bind_Raise_inv {A B} (m : M A) (k : A → M B) w e w' :
  bind m k w = Raise e w' →
  m w = Raise e w' ∨ ∃ a w1, m w = Ok a w1 ∧ k a w1 = Raise e w'.
Proof.
  unfold bind. destruct (m w) as [a w1|e1 w1]; [eauto |].
  intros [= -> ->]. by left.
Qed.

(** A statement that only talks to the environment leaves the file system
    and the error stream as they are. *)
Definition env_only {A} (m : M A) : Prop :=
  ∀ w, w_fs (world_of (m w)) = w_fs w ∧ w_stderr (world_of (m w)) = w_stderr w.

Lemma env_only_call {A} (f : env → (exn + A) * env) : env_only (call f).
Proof.
  intros w. unfold call. by destruct (f (w_env w)) as [[e|a] e'].
Qed.

Lemma env_only_ret {A} (a : A) : env_only (ret a).
Proof. by intros w. Qed.

Lemma env_only_raise {A} (e : exn) : env_only (@raise P A e).
Proof. by intros w. Qed.

Lemma env_only_bind {A B} (m : M A) (k : A → M B) :
  env_only m → (∀ a, env_only (k a)) → env_only (bind m k).
Proof.
  intros Hm Hk w. unfold bind. specialize (Hm w).
  destruct (m w) as [a w1|e w1]; simpl in Hm; [| done].
  destruct (Hk a w1) as [-> ->]. done.
Qed.

Lemma env_only_until polls (method : M bool) :
  env_only method → env_only (until_loop polls method).
Proof.
  intros Hm. induction polls as [|polls IH]; intros w; simpl;
    specialize (Hm w);
    destruct (method w) as [[] w1|e w1]; simpl in Hm; try done.
  - by destruct e.
  - by destruct (IH (set_env (time_sleep (w_env w1)) w1)) as [-> ->].
  - destruct e; try done.
    by destruct (IH (set_env (time_sleep (w_env w1)) w1)) as [-> ->].
Qed.

Lemma env_only_has_css_class locator css_class :
  env_only (Element_has_css_class locator css_class).
Proof.
  apply env_only_bind; [apply env_only_call |]. intros el.
  apply env_only_bind; [apply env_only_call |]. intros [cls|].
  - apply env_only_ret.
  - apply env_only_raise.
Qed.

Lemma env_only_meteoblue url : env_only (scrape_meteoblue url).
Proof.
  unfold scrape_meteoblue.
  apply env_only_bind; [apply env_only_call |]. intros _.
  apply env_only_bind.
  { intros w. pose proof (env_only_call (find_element (By_ID, "accept_all_cookies")) w) as Hf.
    unfold find_element_by_id.
    destruct (call (find_element (By_ID, "accept_all_cookies")) w) as [el w1|e w1];
      simpl in Hf.
    - destruct (env_only_call (element_click el) w1) as [-> ->]. done.
    - by destruct e. }
  intros _. apply env_only_bind.
  { apply env_only_until, env_only_has_css_class. }
  intros _. apply env_only_bind; [apply env_only_call |]. intros image.
  apply env_only_bind; [apply env_only_call |]. intros image_url.
  apply env_only_call.
Qed.

Lemma env_only_yr url : env_only (scrape_yr url).
Proof.
  repeat (apply env_only_bind; [apply env_only_call | intros ?]).
  apply env_only_call.
Qed.

Lemma env_only_shmu url : env_only (scrape_shmu url).
Proof.
  repeat (apply env_only_bind; [apply env_only_call | intros ?]).
  apply env_only_call.
Qed.

(** *** The loop over the URLs *)

(** The file name the loop derives from a URL, [None] for a URL of no known
    site; [scrape_site_Some] and [scrape_site_None] below check it against
    [scrape_site]. *)
Definition file_name_for (url : string) : option string :=
  if Str.contains "meteoblue.com" url then Some "meteoblue"
  else if Str.contains "yr.no" url then Some "yr"
  else if Str.contains "shmu.sk" url then
    Some (if Str.contains "mgram10" url then "shmu_ecmwf" else "shmu_aladin")
  else None.

(** The line written for a URL of no known site. *)
Definition warning (url : string) : string :=
  "Unknown website: " +:+ url +:+ Str.newline.

(** What a pass of the loop from world [w] scrapes: for each URL of a known
    site, in order, the path its image is saved under and the image the
    extractor returned (up to the first failure, if there is one). *)
Fixpoint scraped (dest_dir : string) (urls : list string) (w : world)
  : list (string * bytes) :=
  match urls with
  | [] => []
  | url :: urls' =>
      match scrape_site url w with
      | Ok None w1 => scraped dest_dir urls' w1
      | Ok (Some (image, file_name)) w1 =>
          let file_name := path_join dest_dir (file_name +:+ ".png") in
          match write_file file_name image w1 with
          | Ok _ w2 => (file_name, image) :: scraped dest_dir urls' w2
          | Raise _ _ => []
          end
      | Raise _ _ => []
      end
  end.

(** The same for a whole location, from the world it is processed in. *)
Definition scrape_results (location : string) (urls : list string) (w : world)
  : list (string * bytes) :=
  let dest_dir := path_join FILE_DIR location in
  match os_makedirs dest_dir w with
  | Ok _ w1 => scraped dest_dir urls w1
  | Raise _ _ => []
  end.

(** Writing the scraped images to the file system, in order. *)
Definition save_all (log : list (string * bytes)) (fs : gmap string node)
  : gmap string node :=
  foldl (λ fs pb, <[pb.1 := File pb.2]> fs) fs log.

Lemma env_only_Ok {A} (m : M A) w a w1 :
  env_only m → m w = Ok a w1 → w_fs w1 = w_fs w ∧ w_stderr w1 = w_stderr w.
Proof. intros Hm Hr. specialize (Hm w). by rewrite Hr in Hm. Qed.

Lemma env_only_Raise {A} (m : M A) w e w1 :
  env_only m → m w = Raise e w1 → w_fs w1 = w_fs w ∧ w_stderr w1 = w_stderr w.
Proof. intros Hm Hr. specialize (Hm w). by rewrite Hr in Hm. Qed.

Lemma scrape_site_Some url w image file_name w1 :
  scrape_site url w = Ok (Some (image, file_name)) w1 →
  file_name_for url = Some file_name ∧
  w_fs w1 = w_fs w ∧ w_stderr w1 = w_stderr w.
Proof.
  unfold scrape_site, file_name_for.
  destruct (Str.contains "meteoblue.com" url).
  { intros (img & w' & Hs & [= <- <- <-])%bind_Ok_inv. split; [done |].
    eapply env_only_Ok; [apply env_only_meteoblue | done]. }
  destruct (Str.contains "yr.no" url).
  { intros (img & w' & Hs & [= <- <- <-])%bind_Ok_inv. split; [done |].
    eapply env_only_Ok; [apply env_only_yr | done]. }
  destruct (Str.contains "shmu.sk" url).
  { intros (img & w' & Hs & [= <- <- <-])%bind_Ok_inv. split; [done |].
    eapply env_only_Ok; [apply env_only_shmu | done]. }
  intros (? & w' & Hs & Hr)%bind_Ok_inv. discriminate Hr.
Qed.

Lemma scrape_site_None url w w1 :
  scrape_site url w = Ok None w1 →
  file_name_for url = None ∧
  w1 = {| w_fs := w_fs w; w_stderr := w_stderr w ++ [warning url];
          w_env := w_env w |}.
Proof.
  unfold scrape_site, file_name_for.
  destruct (Str.contains "meteoblue.com" url).
  { intros (img & w' & Hs & Hr)%bind_Ok_inv. discriminate Hr. }
  destruct (Str.contains "yr.no" url).
  { intros (img & w' & Hs & Hr)%bind_Ok_inv. discriminate Hr. }
  destruct (Str.contains "shmu.sk" url).
  { intros (img & w' & Hs & Hr)%bind_Ok_inv. discriminate Hr. }
  intros [= <-]. done.
Qed.


Lemma scrape_site_Raise url w e w1 :
  scrape_site url w = Raise e w1 →
  is_Some (file_name_for url) ∧ w_fs w1 = w_fs w ∧ w_stderr w1 = w_stderr w.
Proof.
  unfold scrape_site, file_name_for.
  destruct (Str.contains "meteoblue.com" url).
  { intros [Hs | (img & w' & Hs & Hr)]%bind_Raise_inv; [| discriminate Hr].
    split; [by eexists |].
    eapply env_only_Raise; [apply env_only_meteoblue | done]. }
  destruct (Str.contains "yr.no" url).
  { intros [Hs | (img & w' & Hs & Hr)]%bind_Raise_inv; [| discriminate Hr].
    split; [by eexists |].
    eapply env_only_Raise; [apply env_only_yr | done]. }
  destruct (Str.contains "shmu.sk" url).
  { intros [Hs | (img & w' & Hs & Hr)]%bind_Raise_inv; [| discriminate Hr].
    split; [by eexists |].
    eapply env_only_Raise; [apply env_only_shmu | done]. }
  intros Hr. discriminate Hr.
Qed.

Lemma write_file_Ok p data w w' :
  write_file p data w = Ok tt w' →
  w' = set_fs (<[p := File data]> (w_fs w)) w ∧ w_fs w !! p ≠ Some Dir.
Proof.
  unfold write_file, fs_update, Fs.write.
  destruct (w_fs w !! p) as [[|old]|]; [done | |]; by intros [= <-].
Qed.

Lemma write_file_Raise p data w e w' :
  write_file p data w = Raise e w' → w' = w ∧ w_fs w !! p = Some Dir.
Proof.
  unfold write_file, fs_update, Fs.write.
  destruct (w_fs w !! p) as [[|old]|]; [| done | done]. by intros [= <- <-].
Qed.

(** The path a file name derived by the loop is saved under. *)
Definition saved_as (dest_dir file_name : string) : string :=
  path_join dest_dir (file_name +:+ ".png").

Lemma scraped_cons_Some dest_dir url urls w image file_name w1 w2 :
  scrape_site url w = Ok (Some (image, file_name)) w1 →
  write_file (saved_as dest_dir file_name) image w1 = Ok tt w2 →
  scraped dest_dir (url :: urls) w =
    (saved_as dest_dir file_name, image) :: scraped dest_dir urls w2.
Proof. unfold saved_as. simpl. by intros -> ->. Qed.

Lemma scraped_cons_None dest_dir url urls w w1 :
  scrape_site url w = Ok None w1 →
  scraped dest_dir (url :: urls) w = scraped dest_dir urls w1.
Proof. simpl. by intros ->. Qed.

Lemma scrape_loop_Ok dest_dir urls acc w l w' :
  scrape_loop dest_dir urls acc w = Ok l w' →
  l = acc ++ (scraped dest_dir urls w).*1 ∧
  w_fs w' = save_all (scraped dest_dir urls w) (w_fs w) ∧
  (scraped dest_dir urls w).*1 = saved_as dest_dir <$> omap file_name_for urls ∧
  w_stderr w' =
    w_stderr w ++ (warning <$> filter (λ url, file_name_for url = None) urls).
Proof.
  revert acc w l w'. induction urls as [|url urls IH]; intros acc w l w'.
  - intros [= <- <-]. simpl. by rewrite !app_nil_r.
  - cbn [scrape_loop].
    intros ([[image file_name]|] & w1 & Hs & Hk)%bind_Ok_inv.
    + apply bind_Ok_inv in Hk as ([] & w2 & Hw & Hk).
      rewrite (scraped_cons_Some _ _ _ _ _ _ _ _ Hs Hw).
      apply scrape_site_Some in Hs as (Hf & Hfs & Herr).
      apply write_file_Ok in Hw as [Hw2 _].
      apply IH in Hk as (Hl & Hfs' & Hp & Herr').
      rewrite fmap_cons, Hp. cbn [omap list_omap]. rewrite Hf.
      rewrite filter_cons_False by (by rewrite Hf).
      rewrite Hl, Hfs', Herr', Hp, Hw2. simpl. rewrite Hfs, Herr.
      by rewrite <- app_assoc.
    + rewrite (scraped_cons_None _ _ _ _ _ Hs).
      apply scrape_site_None in Hs as (Hf & Hw1).
      apply IH in Hk as (Hl & Hfs' & Hp & Herr').
      cbn [omap list_omap]. rewrite Hf.
      rewrite filter_cons_True by done.
      rewrite Hl, Hfs', Herr', Hp, Hw1. simpl.
      by rewrite <- app_assoc.
Qed.

(** *** Opening the saved images *)

Definition opens_as (fs : gmap string node) (p : string) (img : image) : Prop :=
  ∃ data, fs !! p = Some (File data) ∧ png_decode data = Some img.

Lemma Image_open_Ok p w img w' :
  Image_open p w = Ok img w' → w' = w ∧ opens_as (w_fs w) p img.
Proof.
  unfold Image_open, read_file, fs_query, Fs.read, bind.
  destruct (w_fs w !! p) as [[|data]|] eqn:Hp; try done.
  destruct (png_decode data) as [img'|] eqn:Hd; [| done].
  intros [= <- <-]. split; [done |]. by exists data.
Qed.

Lemma Image_open_Raise p w e w' : Image_open p w = Raise e w' → w' = w.
Proof.
  unfold Image_open, read_file, fs_query, Fs.read, bind.
  destruct (w_fs w !! p) as [[|data]|]; try by intros [= _ <-].
  destruct (png_decode data); [done | by intros [= _ <-]].
Qed.

Lemma open_all_Ok paths w images w' :
  open_all paths w = Ok images w' →
  w' = w ∧ Forall2 (opens_as (w_fs w)) paths images.
Proof.
  revert images w'. induction paths as [|p paths IH]; intros images w'; simpl.
  - intros [= <- <-]. by split.
  - intros (img & w1 & [-> Ho]%Image_open_Ok & Hk)%bind_Ok_inv.
    apply bind_Ok_inv in Hk as (imgs & w2 & [-> Hall]%IH & [= <- <-]).
    split; [done |]. by constructor.
Qed.

Lemma open_all_Raise paths w e w' : open_all paths w = Raise e w' → w' = w.
Proof.
  revert w'. induction paths as [|p paths IH]; intros w'; simpl; [done |].
  intros [Hr | (img & w1 & [-> _]%Image_open_Ok & Hk)]%bind_Raise_inv.
  - by apply Image_open_Raise in Hr.
  - apply bind_Raise_inv in Hk as [Hr | (imgs & w2 & _ & Hr)]; [auto | done].
Qed.

(** *** Sizes and offsets *)

(** [m] is the greatest element of [xs]. *)
Definition is_max (m : Z) (xs : list Z) : Prop := m ∈ xs ∧ ∀ x, x ∈ xs → x ≤ m.

Lemma foldl_max_spec x xs :
  is_max (foldl Z.max x xs) (x :: xs).
Proof.
  revert x. induction xs as [|y xs IH]; intros x; simpl.
  - split; [by left |]. by intros z ->%list_elem_of_singleton.
  - destruct (IH (Z.max x y)) as [Hin Hle]. split.
    + apply elem_of_cons in Hin as [Heq | Hin].
      * rewrite Heq. destruct (Z.max_spec x y) as [[_ ->] | [_ ->]].
        -- right. by left.
        -- by left.
      * by do 2 right.
    + assert (Z.max x y ≤ foldl Z.max (Z.max x y) xs) by (apply Hle; by left).
      intros z [-> | [-> | Hz]%elem_of_cons]%elem_of_cons; [lia | lia |].
      apply Hle. by right.
Qed.

Lemma py_max_Ok xs w m w' : py_max xs w = Ok m w' → w' = w ∧ is_max m xs.
Proof.
  destruct xs as [|x xs]; [done |]. intros [= <- <-].
  split; [done | apply foldl_max_spec].
Qed.

Lemma py_max_Raise xs w e w' :
  py_max xs w = Raise e w' → xs = [] ∧ e = ValueError ∧ w' = w.
Proof. destruct xs as [|x xs]; [| done]. by intros [= <- <-]. Qed.

Lemma foldl_add_shift a xs : foldl Z.add a xs = a + foldl Z.add 0 xs.
Proof.
  revert a. induction xs as [|x xs IH]; intros a; simpl; [lia |].
  rewrite (IH (a + x)), (IH (0 + x)). lia.
Qed.

Lemma py_sum_cons x xs : py_sum (x :: xs) = x + py_sum xs.
Proof. unfold py_sum. simpl. by rewrite foldl_add_shift. Qed.

Lemma py_sum_app xs ys : py_sum (xs ++ ys) = py_sum xs + py_sum ys.
Proof.
  induction xs as [|x xs IH]; [done |]. simpl.
  rewrite !py_sum_cons, IH. lia.
Qed.

Lemma paste_loop_frame max_width image_spacing images combined_image v :
  let result := paste_loop max_width image_spacing images combined_image v in
  mode result = mode combined_image ∧ size result = size combined_image ∧
  color result = color combined_image.
Proof.
  revert combined_image v. induction images as [|img images IH];
    intros c v; simpl; [done |].
  apply (IH (paste c img _) _).
Qed.

Lemma paste_loop_pastes max_width image_spacing images combined_image v :
  (pastes (paste_loop max_width image_spacing images combined_image v)).*1 =
  (pastes combined_image).*1 ++ images.
Proof.
  revert combined_image v. induction images as [|img images IH];
    intros c v; simpl; [by rewrite app_nil_r |].
  rewrite IH. simpl. by rewrite fmap_app, <- app_assoc.
Qed.

Lemma paste_loop_lookup max_width image_spacing images combined_image v i img :
  images !! i = Some img →
  pastes (paste_loop max_width image_spacing images combined_image v)
    !! (length (pastes combined_image) + i)%nat =
  Some (img, ((max_width - width img) `div` 2,
              v + py_sum ((λ im, height im + image_spacing) <$> take i images))).
Proof.
  revert combined_image v i. induction images as [|im images IH];
    intros c v i; [done |].
  destruct i as [|i]; simpl.
  - intros [= ->].
    assert (Hpre : ∀ ims c' v', pastes c' !! length (pastes c) = Some (img,
                ((max_width - width img) `div` 2, v)) →
              pastes (paste_loop max_width image_spacing ims c' v')
                !! length (pastes c) = Some (img,
                ((max_width - width img) `div` 2, v))).
    { induction ims as [|x ims IHi]; intros c' v' Hc'; simpl; [done |].
      apply IHi. simpl. by apply lookup_app_l_Some. }
    rewrite Nat.add_0_r. unfold py_sum. simpl. rewrite Z.add_0_r.
    apply Hpre. simpl. rewrite lookup_app_r by done.
    by rewrite Nat.sub_diag.
  - intros Hi. specialize (IH (paste c im ((max_width - width im) `div` 2, v))
      (v + (height im + image_spacing)) i Hi).
    simpl in IH. rewrite length_app in IH. simpl in IH.
    replace (length (pastes c) + S i)%nat with (length (pastes c) + 1 + i)%nat by lia.
    rewrite IH. rewrite py_sum_cons. by rewrite !Z.add_assoc.
Qed.

End runs.

(** ** Facts about paths and the file system *)

Section path_facts.

Implicit Types (d p q x y : string) (fs : gmap string node).

Lemma string_app_assoc (a b c : string) : (a +:+ b) +:+ c = a +:+ (b +:+ c).
Proof.
  induction a as [|ch a IH]; [done |].
  unfold String.app in *. simpl. by f_equal.
Qed.

Lemma startswith_app s t : Str.startswith (s +:+ t) s = true.
Proof.
  induction s as [|c s IH]; [done |].
  unfold String.app in *. simpl. by rewrite Ascii.eqb_refl.
Qed.

Lemma startswith_length s pre :
  Str.startswith s pre = true → (String.length pre ≤ String.length s)%nat.
Proof.
  intros [post ->]%startswith_is_prefix. rewrite string_app_length. lia.
Qed.

(** What [path_join] puts between its arguments. *)
Definition joint d : string :=
  if bool_decide (d = EmptyString) || Str.endswith_sep d then EmptyString
  else "/".

Lemma path_join_relative d x :
  Str.startswith x "/" = false → path_join d x = d +:+ joint d +:+ x.
Proof.
  unfold path_join, joint. intros ->.
  by destruct (bool_decide (d = EmptyString) || Str.endswith_sep d).
Qed.

Lemma path_join_absolute d x : Str.startswith x "/" = true → path_join d x = x.
Proof. unfold path_join. by intros ->. Qed.

Lemma path_join_inj d x y :
  Str.startswith x "/" = false → Str.startswith y "/" = false →
  path_join d x = path_join d y → x = y.
Proof.
  intros Hx Hy. rewrite !path_join_relative by done.
  by intros ?%string_app_inj_l%string_app_inj_l.
Qed.

Lemma path_join_ne d x :
  Str.startswith x "/" = false → x ≠ EmptyString → path_join d x ≠ d.
Proof.
  intros Hx Hne Heq. rewrite path_join_relative in Heq by done.
  apply (f_equal String.length) in Heq. rewrite !string_app_length in Heq.
  destruct x; [done |]. simpl in Heq. lia.
Qed.

Lemma path_join_below d x :
  Str.startswith x "/" = false → x ≠ EmptyString → d ≠ EmptyString →
  Fs.below d (path_join d x) = true.
Proof.
  intros Hx Hne Hd. unfold Fs.below.
  rewrite bool_decide_eq_false_2 by by apply path_join_ne.
  rewrite andb_true_r, path_join_relative by done. unfold joint.
  rewrite bool_decide_eq_false_2 by done. simpl.
  destruct (Str.endswith_sep d); simpl.
  - apply startswith_app.
  - rewrite <- string_app_assoc. apply startswith_app.
Qed.

Lemma dest_dir_nonempty location : path_join FILE_DIR location ≠ EmptyString.
Proof.
  unfold path_join. destruct location as [|c location].
  - by vm_compute.
  - destruct (Str.startswith (String c location) "/"); [done |].
    unfold FILE_DIR, String.app. by simpl.
Qed.

Lemma below_length d p :
  Fs.below d p = true → (String.length d ≤ String.length p)%nat.
Proof.
  unfold Fs.below. intros [Hs%startswith_length _]%andb_true_iff.
  destruct (Str.endswith_sep d); [done |].
  rewrite string_app_length in Hs. simpl in Hs. lia.
Qed.

Lemma below_irrefl d : Fs.below d d = false.
Proof.
  unfold Fs.below. rewrite bool_decide_eq_true_2 by done. apply andb_false_r.
Qed.

Lemma ancestors_from_length seen p a :
  a ∈ Fs.ancestors_from seen p →
  (String.length a < String.length seen + String.length p)%nat.
Proof.
  revert seen. induction p as [|c p IH]; intros seen; simpl.
  - by intros ?%elem_of_nil.
  - intros [Ha | Ha]%elem_of_app.
    + destruct (_ && _); [| by apply elem_of_nil in Ha].
      apply list_elem_of_singleton in Ha as ->. lia.
    + apply IH in Ha. rewrite string_app_length in Ha. simpl in Ha. lia.
Qed.

Lemma ancestors_not_within p a : a ∈ Fs.ancestors p → Fs.within p a = false.
Proof.
  intros Ha%ancestors_from_length. simpl in Ha. unfold Fs.within.
  apply orb_false_iff. split.
  - apply bool_decide_eq_false_2. intros ->. lia.
  - destruct (Fs.below p a) eqn:Hb; [| done].
    apply below_length in Hb. lia.
Qed.

Lemma lookup_mkdir_missing fs a q :
  q ≠ a → Fs.mkdir_missing fs a !! q = fs !! q.
Proof.
  intros Hne. unfold Fs.mkdir_missing.
  destruct (fs !! a); [done |]. by rewrite lookup_insert_ne.
Qed.

Lemma lookup_mkdirs fs l q :
  q ∉ l → foldl Fs.mkdir_missing fs l !! q = fs !! q.
Proof.
  revert fs. induction l as [|a l IH]; intros fs Hq; simpl; [done |].
  apply not_elem_of_cons in Hq as [Hne Hq].
  by rewrite IH, lookup_mkdir_missing.
Qed.

(** [os.makedirs(p)] fails exactly when [p] exists; otherwise [p] is a new
    directory and nothing at or below it has changed otherwise. *)
Lemma makedirs_exists p fs :
  is_Some (fs !! p) → Fs.makedirs p fs = inl FileExistsError.
Proof. unfold Fs.makedirs. by intros [n ->]. Qed.

Lemma makedirs_new p fs :
  fs !! p = None →
  ∃ fs1, Fs.makedirs p fs = inr fs1 ∧ fs1 !! p = Some Dir ∧
         ∀ q, Fs.below p q = true → fs1 !! q = fs !! q.
Proof.
  intros Hp. unfold Fs.makedirs. rewrite Hp. eexists. split; [done |].
  split; [apply lookup_insert_eq |]. intros q Hq.
  rewrite lookup_insert_ne.
  - apply lookup_mkdirs. intros Ha%ancestors_not_within.
    unfold Fs.within in Ha. rewrite Hq in Ha. by rewrite orb_true_r in Ha.
  - intros ->. by rewrite below_irrefl in Hq.
Qed.

Lemma makedirs_inv p fs r :
  Fs.makedirs p fs = r →
  (is_Some (fs !! p) ∧ r = inl FileExistsError) ∨
  (fs !! p = None ∧ ∃ fs1, r = inr fs1 ∧ fs1 !! p = Some Dir ∧
     ∀ q, Fs.below p q = true → fs1 !! q = fs !! q).
Proof.
  intros <-. destruct (fs !! p) as [n|] eqn:Hp.
  - left. split; [by eexists |]. apply makedirs_exists. by eexists.
  - right. split; [done |].
    destruct (makedirs_new p fs Hp) as (fs1 & -> & ? & ?). eauto.
Qed.

End path_facts.

(** ** Facts about a location's run *)

Section location_facts.

Context `{P : Platform}.

Implicit Types (fs : gmap string node) (log : list (string * bytes)).

Lemma save_all_snoc log p b fs :
  save_all (log ++ [(p, b)]) fs = <[p := File b]> (save_all log fs).
Proof. unfold save_all. by rewrite foldl_snoc. Qed.

Lemma save_all_notin log fs q :
  q ∉ log.*1 → save_all log fs !! q = fs !! q.
Proof.
  induction log as [|[p b] log IH] using rev_ind; [done |].
  rewrite fmap_app, save_all_snoc. simpl.
  intros [Hq Hp]%not_elem_of_app.
  rewrite lookup_insert_ne; [auto |].
  intros ->. apply Hp. by left.
Qed.

Lemma save_all_in log fs q :
  q ∈ log.*1 → ∃ b, save_all log fs !! q = Some (File b) ∧ (q, b) ∈ log.
Proof.
  induction log as [|[p b] log IH] using rev_ind.
  - by intros ?%elem_of_nil.
  - rewrite fmap_app, save_all_snoc. simpl. intros Hq.
    destruct (decide (q = p)) as [->|Hne].
    + exists b. rewrite lookup_insert_eq. split; [done |].
      apply elem_of_app. right. by left.
    + rewrite lookup_insert_ne by done.
      apply elem_of_app in Hq as [Hq | Hq%list_elem_of_singleton]; [| done].
      destruct (IH Hq) as (b' & ? & ?). exists b'. split; [done |].
      apply elem_of_app. by left.
Qed.


(** The names the loop can derive. *)
Lemma file_name_for_cases url f :
  file_name_for url = Some f →
  f = "meteoblue" ∨ f = "yr" ∨ f = "shmu_ecmwf" ∨ f = "shmu_aladin".
Proof.
  unfold file_name_for.
  destruct (Str.contains "meteoblue.com" url); [intros [= <-]; auto |].
  destruct (Str.contains "yr.no" url); [intros [= <-]; auto |].
  destruct (Str.contains "shmu.sk" url); [| done].
  destruct (Str.contains "mgram10" url); intros [= <-]; auto.
Qed.

Lemma saved_as_relative url f :
  file_name_for url = Some f →
  Str.startswith (f +:+ ".png") "/" = false ∧ f +:+ ".png" ≠ EmptyString ∧
  f +:+ ".png" ≠ "all.png".
Proof.
  intros [-> | [-> | [-> | ->]]]%file_name_for_cases; by vm_compute.
Qed.


(** The image [join_images] builds from the opened [images]. *)
Definition composite (max_width : Z) (images : list image) : canvas :=
  paste_loop max_width 100 images
    {| mode := "RGBA";
       size := (max_width,
                py_sum (height <$> images) + 100 * Z.of_nat (length images));
       color := "white";
       pastes := [] |}
    0.

Lemma combine_images_Ok paths w combined_image w' :
  combine_images paths w = Ok combined_image w' →
  w' = w ∧
  ∃ images max_width,
    Forall2 (opens_as (w_fs w)) paths images ∧
    is_max max_width (width <$> images) ∧
    combined_image = composite max_width images.
Proof.
  unfold combine_images.
  intros (images & w1 & [-> Hopen]%open_all_Ok & Hk)%bind_Ok_inv.
  apply bind_Ok_inv in Hk as (max_width & w2 & [-> Hmax]%py_max_Ok & Hk).
  apply bind_Ok_inv in Hk as (combined & w3 & Hnew & Hret).
  unfold Image_new in Hnew. destruct (_ || _); [done |].
  injection Hnew as <- <-. injection Hret as <- <-.
  split; [done |]. by exists images, max_width.
Qed.

Lemma os_makedirs_Ok p w w1 :
  os_makedirs p w = Ok tt w1 →
  ∃ fs1, Fs.makedirs p (w_fs w) = inr fs1 ∧ w1 = set_fs fs1 w.
Proof.
  unfold os_makedirs, fs_update.
  destruct (Fs.makedirs p (w_fs w)) as [e|fs1]; [done |].
  intros [= <-]. by exists fs1.
Qed.

Lemma os_makedirs_Raise p w e w1 :
  os_makedirs p w = Raise e w1 →
  e = FileExistsError ∧ w1 = w ∧ is_Some (w_fs w !! p).
Proof.
  unfold os_makedirs, fs_update.
  destruct (makedirs_inv p (w_fs w) _ eq_refl) as [[Hex ->] | (_ & fs1 & -> & _)];
    [| done].
  by intros [= <- <-].
Qed.

(** What a completed [scrape_and_save] has done. *)
Lemma scrape_and_save_Ok location urls w w' :
  scrape_and_save location urls w = Ok tt w' →
  let dest_dir := path_join FILE_DIR location in
  let log := scrape_results location urls w in
  ∃ fs1 images max_width,
    Fs.makedirs dest_dir (w_fs w) = inr fs1 ∧
    log.*1 = saved_as dest_dir <$> omap file_name_for urls ∧
    Forall2 (opens_as (save_all log fs1)) log.*1 images ∧
    is_max max_width (width <$> images) ∧
    w_fs w' = <[path_join dest_dir "all.png" :=
                  File (png_encode (composite max_width images))]>
                (save_all log fs1) ∧
    w_stderr w' =
      w_stderr w ++ (warning <$> filter (λ url, file_name_for url = None) urls).
Proof.
  intros Hrun dest_dir log. unfold scrape_and_save in Hrun.
  fold dest_dir in Hrun.
  apply bind_Ok_inv in Hrun as ([] & w1 & Hmk & Hrun).
  assert (Hlog : log = scraped dest_dir urls w1).
  { unfold log, scrape_results. fold dest_dir. by rewrite Hmk. }
  apply os_makedirs_Ok in Hmk as (fs1 & Hmk & ->).
  apply bind_Ok_inv in Hrun as (paths & w2 & Hloop & Hjoin).
  apply scrape_loop_Ok in Hloop as (-> & Hfs2 & Hnames & Herr2).
  apply bind_Ok_inv in Hjoin as (combined & w3 & Hjoin & Hsave).
  apply combine_images_Ok in Hjoin
    as (-> & images & max_width & Hopen & Hmax & ->).
  apply write_file_Ok in Hsave as [-> _].
  rewrite <- Hlog in *. simpl in *.
  exists fs1, images, max_width. rewrite Hfs2 in Hopen |- *.
  rewrite Herr2. done.
Qed.

End location_facts.

(** ** Dispatch on the URL *)

Section dispatch.

Context `{P : Platform}.

(** The loop handles [url] by running [extractor] on it and writing what it
    returns to [file] in the location's directory, then goes on with the
    remaining URLs, [file]'s path added to [scraped_images]. *)
Definition scrapes_with (extractor : string → M bytes) (file url : string) : Prop :=
  ∀ dest_dir urls acc w,
    scrape_loop dest_dir (url :: urls) acc w =
    bind (extractor url)
      (λ image,
         bind (write_file (path_join dest_dir file) image)
           (λ _, scrape_loop dest_dir urls (acc ++ [path_join dest_dir file])))
      w.

Lemma scrapes_with_intro extractor name url :
  (∀ w, scrape_site url w =
        bind (extractor url) (λ image, ret (Some (image, name))) w) →
  scrapes_with extractor (name +:+ ".png") url.
Proof.
  intros Hsite dest_dir urls acc w. cbn [scrape_loop]. unfold bind at 1.
  rewrite Hsite. unfold bind at 1 3. by destruct (extractor url w).
Qed.

(** C5: the URL is tested for 'meteoblue.com' first, then 'yr.no', then
    'shmu.sk'; the image goes to meteoblue.png for the first, yr.png for the
    second, and for a 'shmu.sk' URL to shmu_ecmwf.png when the URL contains
    'mgram10' and to shmu_aladin.png otherwise. *)
Theorem site_precedence (url : string) :
  (Str.occurs_in "meteoblue.com" url →
   scrapes_with scrape_meteoblue "meteoblue.png" url) ∧
  (¬ Str.occurs_in "meteoblue.com" url → Str.occurs_in "yr.no" url →
   scrapes_with scrape_yr "yr.png" url) ∧
  (¬ Str.occurs_in "meteoblue.com" url → ¬ Str.occurs_in "yr.no" url →
   Str.occurs_in "shmu.sk" url → Str.occurs_in "mgram10" url →
   scrapes_with scrape_shmu "shmu_ecmwf.png" url) ∧
  (¬ Str.occurs_in "meteoblue.com" url → ¬ Str.occurs_in "yr.no" url →
   Str.occurs_in "shmu.sk" url → ¬ Str.occurs_in "mgram10" url →
   scrapes_with scrape_shmu "shmu_aladin.png" url).
Proof.
  repeat split.
  - intros Hm%contains_occurs_in.
    apply (scrapes_with_intro scrape_meteoblue "meteoblue"). intros w.
    unfold scrape_site. by rewrite Hm.
  - intros Hm%contains_false_iff Hy%contains_occurs_in.
    apply (scrapes_with_intro scrape_yr "yr"). intros w.
    unfold scrape_site. by rewrite Hm, Hy.
  - intros Hm%contains_false_iff Hy%contains_false_iff
      Hs%contains_occurs_in Hg%contains_occurs_in.
    apply (scrapes_with_intro scrape_shmu "shmu_ecmwf"). intros w.
    unfold scrape_site. by rewrite Hm, Hy, Hs, Hg.
  - intros Hm%contains_false_iff Hy%contains_false_iff
      Hs%contains_occurs_in Hg%contains_false_iff.
    apply (scrapes_with_intro scrape_shmu "shmu_aladin"). intros w.
    unfold scrape_site. by rewrite Hm, Hy, Hs, Hg.
Qed.




End dispatch.

(** ** The composite image *)

Section composite_facts.

Context `{P : Platform}.

Lemma composite_size_eq max_width images :
  size (composite max_width images) =
  (max_width, py_sum (height <$> images) + 100 * Z.of_nat (length images)).
Proof. unfold composite. by destruct (paste_loop_frame max_width 100 images
  {| mode := "RGBA";
     size := (max_width,
              py_sum (height <$> images) + 100 * Z.of_nat (length images));
     color := "white"; pastes := [] |} 0) as (_ & -> & _).
Qed.

Lemma composite_pastes max_width images :
  (pastes (composite max_width images)).*1 = images.
Proof. unfold composite. by rewrite paste_loop_pastes. Qed.

Lemma composite_lookup max_width images i image box :
  pastes (composite max_width images) !! i = Some (image, box) →
  images !! i = Some image ∧
  box = ((max_width - width image) `div` 2,
         py_sum ((λ im, height im + 100) <$> take i images)).
Proof.
  intros Hi.
  assert (Him : images !! i = Some image).
  { rewrite <- (composite_pastes max_width images), list_lookup_fmap, Hi. done. }
  split; [done |].
  pose proof (paste_loop_lookup max_width 100 images
    {| mode := "RGBA";
       size := (max_width,
                py_sum (height <$> images) + 100 * Z.of_nat (length images));
       color := "white"; pastes := [] |} 0 i image Him) as Hl.
  simpl in Hl. unfold composite in Hi. rewrite Hl in Hi.
  injection Hi as <-. by rewrite Z.add_0_l.
Qed.


Lemma saved_as_not_all dest_dir (urls : list string) :
  path_join dest_dir "all.png" ∉ saved_as dest_dir <$> omap file_name_for urls.
Proof.
  intros (f & Heq & (url & _ & Hf)%list_elem_of_omap)%list_elem_of_fmap.
  destruct (saved_as_relative url f Hf) as (Hrel & _ & Hne).
  apply Hne. symmetry. by apply (path_join_inj dest_dir).
Qed.



End composite_facts.

(** ** Properties of the composite image *)

Section composite_claims.

Context `{P : Platform}.




End composite_claims.

(** ** Runs on the demo platform *)

Module Runs.

Import Demo.

(** The example of the specification: a yr.no graph and an SHMU ECMWF graph. *)
Definition test_urls : list string :=
  ["https://www.yr.no/en/graph/x"; "https://www.shmu.sk/?page=1&mgram10"].

(** Two meteoblue URLs for one location: a five by one image, then a three by
    two image. *)
Definition peak_urls : list string :=
  ["https://www.meteoblue.com/wide"; "https://www.meteoblue.com/valley"].


(** The worlds the two runs end in. *)
Definition test_done : world :=
  Eval vm_compute in world_of (scrape_and_save "test" test_urls (start [])).
Definition peak_done : world :=
  Eval vm_compute in world_of (scrape_and_save "peak" peak_urls (start [])).



(** A location whose only URL is of no known site, and the run of the
    whole script on a configuration that lists it before [test]. *)
Definition nowhere_urls : list string := ["https://example.org/a"].
Definition nowhere_failed : world :=
  Eval vm_compute in world_of (scrape_and_save "nowhere" nowhere_urls (start [])).
Definition nowhere_run : world :=
  Eval vm_compute in world_of (main (start [x03])).

(** A location whose second URL is of a page that never finishes loading,
    listed before [test]: the world the run of the script ends in. *)
Definition ridge_urls : list string :=
  ["https://www.yr.no/en/graph/x"; "https://www.meteoblue.com/stalled"].
Definition ridge_run : world :=
  Eval vm_compute in world_of (main (start [x04])).

(** The world a first run of the script leaves on the configuration with the
    location [test], from which a second run starts. *)
Definition first_run : world :=
  Eval vm_compute in world_of (main (start [x01])).

End Runs.

(** Closes an equation between closed terms by evaluating both sides. *)
Ltac by_run :=
  lazymatch goal with
  | |- ?l = ?r => vm_cast_no_check (eq_refl r)
  end.

Section composite_runs.

#[local] Existing Instance Demo.demo.






End composite_runs.

Section dispatch_runs.

#[local] Existing Instance Demo.demo.


End dispatch_runs.

(** ** What a location's directory holds *)

Section directory.

Context `{P : Platform}.

Lemma saved_as_below dest_dir url f :
  dest_dir ≠ EmptyString → file_name_for url = Some f →
  Fs.below dest_dir (saved_as dest_dir f) = true ∧ saved_as dest_dir f ≠ dest_dir.
Proof.
  intros Hd (Hrel & Hne & _)%saved_as_relative. split.
  - by apply path_join_below.
  - by apply path_join_ne.
Qed.

Lemma all_png_below dest_dir :
  dest_dir ≠ EmptyString →
  Fs.below dest_dir (path_join dest_dir "all.png") = true ∧
  path_join dest_dir "all.png" ≠ dest_dir.
Proof.
  intros Hd. split.
  - by apply path_join_below.
  - by apply path_join_ne.
Qed.



(** What lies in a location's directory after a completed run. *)
Lemma directory_after location urls w w' :
  scrape_and_save location urls w = Ok tt w' →
  let dest_dir := path_join FILE_DIR location in
  let names := saved_as dest_dir <$> omap file_name_for urls in
  w_fs w !! dest_dir = None ∧
  w_fs w' !! dest_dir = Some Dir ∧
  (∀ q, q ∈ names → Fs.below dest_dir q = true ∧
                    ∃ data, w_fs w' !! q = Some (File data)) ∧
  (Fs.below dest_dir (path_join dest_dir "all.png") = true ∧
   ∃ data, w_fs w' !! path_join dest_dir "all.png" = Some (File data)) ∧
  ∀ q, Fs.below dest_dir q = true → q ∉ names →
       q ≠ path_join dest_dir "all.png" → w_fs w' !! q = w_fs w !! q.
Proof.
  intros Hrun dest_dir names.
  apply scrape_and_save_Ok in Hrun
    as (fs1 & images & max_width & Hmk & Hnames & _ & _ & Hfs & _).
  fold dest_dir in Hmk, Hnames, Hfs. fold names in Hnames.
  pose proof (dest_dir_nonempty location) as Hd. fold dest_dir in Hd.
  destruct (all_png_below dest_dir Hd) as [Hall_below Hall_ne].
  destruct (makedirs_inv _ _ _ Hmk)
    as [[_ [=]] | (Hnone & fs1' & [= <-] & Hdir & Hframe)].
  rewrite Hfs. split; [done |]. split; [| split; [| split]].
  - rewrite lookup_insert_ne by done. rewrite save_all_notin; [done |].
    rewrite Hnames.
    intros (f & Heq & (url & _ & Hf)%list_elem_of_omap)%list_elem_of_fmap.
    by destruct (saved_as_below dest_dir url f Hd Hf) as [_ []].
  - intros q Hq. split.
    + apply list_elem_of_fmap in Hq
        as (f & -> & (url & _ & Hf)%list_elem_of_omap).
      by apply (saved_as_below dest_dir url f).
    + rewrite lookup_insert_ne.
      * rewrite <- Hnames in Hq.
        destruct (save_all_in _ fs1 q Hq) as (b & Hb & _). by exists b.
      * intros <-. by apply (saved_as_not_all dest_dir urls).
  - split; [done |]. eexists. apply lookup_insert_eq.
  - intros q Hbelow Hq Hne.
    rewrite lookup_insert_ne by done.
    rewrite save_all_notin by (by rewrite Hnames). auto.
Qed.


End directory.

Section directory_runs.

#[local] Existing Instance Demo.demo.






End directory_runs.

(** ** The location's directory, and a location without images *)

Section location_directory.

Context `{P : Platform}.









End location_directory.

Section location_directory_runs.

#[local] Existing Instance Demo.demo.

(** A second pass over a location whose directory is there is refused. *)
Example second_pass_refused :
  scrape_and_save "test" Runs.test_urls Runs.test_done =
  Raise FileExistsError Runs.test_done.
Proof. by_run. Qed.



(** The run of the script on that configuration: the directory of the
    location is there and empty, one warning is written, and the location
    listed after it has no directory. *)
Example nowhere_run_aborts :
  main (Demo.start [x03]) = Raise ValueError Runs.nowhere_run ∧
  scrape_and_save "nowhere" Runs.nowhere_urls (Demo.start []) =
    Raise ValueError Runs.nowhere_failed ∧
  w_fs Runs.nowhere_run =
    {[ "weather_config.yml" := File [x03]; "." := Dir; "./weather" := Dir;
       "./weather/nowhere" := Dir ]} ∧
  w_stderr Runs.nowhere_run = [warning "https://example.org/a"].
Proof. split; [by_run |]. split; [by_run |]. split; by_run. Qed.

End location_directory_runs.

(** ** The reset of the output directory *)

Section reset.

Context `{P : Platform}.

(** The file system after the reset: what is at or below [FILE_DIR] removed,
    then [FILE_DIR] made. *)
Definition reset_fs (fs : gmap string node) : gmap string node :=
  <[FILE_DIR := Dir]>
    (foldl Fs.mkdir_missing
       (filter (λ kv, Fs.within FILE_DIR kv.1 = false) fs)
       (Fs.ancestors FILE_DIR)).

(** Whatever is at or below [FILE_DIR] is in a directory at [FILE_DIR]. *)
Definition rooted (fs : gmap string node) : Prop :=
  ∀ q, Fs.within FILE_DIR q = true → is_Some (fs !! q) →
       fs !! FILE_DIR = Some Dir.

Lemma within_refl d : Fs.within d d = true.
Proof. unfold Fs.within. by rewrite bool_decide_eq_true_2. Qed.

Lemma below_within d q : Fs.below d q = true → Fs.within d q = true.
Proof. unfold Fs.within. intros ->. apply orb_true_r. Qed.

Lemma lookup_outside (fs : gmap string node) q :
  Fs.within FILE_DIR q = false →
  filter (λ kv, Fs.within FILE_DIR kv.1 = false) fs !! q = fs !! q.
Proof.
  intros Hq. apply option_eq. intros x. rewrite map_lookup_filter_Some.
  simpl. tauto.
Qed.

Lemma lookup_inside (fs : gmap string node) q :
  Fs.within FILE_DIR q = true →
  filter (λ kv, Fs.within FILE_DIR kv.1 = false) fs !! q = None.
Proof.
  intros Hq. apply eq_None_not_Some. intros [x Hx].
  apply map_lookup_filter_Some in Hx as [_ Hx]. simpl in Hx. congruence.
Qed.

Lemma filter_outside_id (fs : gmap string node) :
  fs !! FILE_DIR = None → rooted fs →
  filter (λ kv, Fs.within FILE_DIR kv.1 = false) fs = fs.
Proof.
  intros Hnone Hrooted. apply map_eq. intros q.
  destruct (Fs.within FILE_DIR q) eqn:Hq.
  - rewrite lookup_inside by done. symmetry. apply eq_None_not_Some.
    intros Hsome. specialize (Hrooted q Hq Hsome). congruence.
  - by apply lookup_outside.
Qed.

Lemma reset_output_Ok w :
  rooted (w_fs w) → reset_output w = Ok tt (set_fs (reset_fs (w_fs w)) w).
Proof.
  intros Hrooted. unfold reset_output, bind, os_path_exists.
  destruct (w_fs w !! FILE_DIR) as [n|] eqn:Hdir.
  - rewrite bool_decide_eq_true_2 by eauto.
    assert (n = Dir) as ->.
    { specialize (Hrooted FILE_DIR (within_refl _)). rewrite Hdir in Hrooted.
      specialize (Hrooted (mk_is_Some _ _ eq_refl)). congruence. }
    unfold shutil_rmtree, os_makedirs, fs_update, Fs.rmtree. rewrite Hdir.
    simpl. unfold Fs.makedirs.
    by rewrite (lookup_inside _ _ (within_refl FILE_DIR)).
  - rewrite bool_decide_eq_false_2 by (by intros [? ?]).
    unfold ret, os_makedirs, fs_update, Fs.makedirs. rewrite Hdir.
    unfold reset_fs. by rewrite filter_outside_id.
Qed.

Lemma reset_fs_root fs : reset_fs fs !! FILE_DIR = Some Dir.
Proof. unfold reset_fs. apply lookup_insert_eq. Qed.

Lemma reset_fs_below fs q :
  Fs.below FILE_DIR q = true → reset_fs fs !! q = None.
Proof.
  intros Hq. unfold reset_fs.
  rewrite lookup_insert_ne by (intros <-; by rewrite below_irrefl in Hq).
  rewrite lookup_mkdirs.
  - by apply lookup_inside, below_within.
  - intros Hin. apply ancestors_not_within in Hin as Hout.
    change (Fs.ancestors FILE_DIR) with ["."] in Hin.
    apply list_elem_of_singleton in Hin as ->. done.
Qed.

Lemma reset_fs_outside fs q :
  Fs.within FILE_DIR q = false → q ≠ "." → reset_fs fs !! q = fs !! q.
Proof.
  intros Hq Hdot. unfold reset_fs.
  rewrite lookup_insert_ne by (intros <-; by rewrite within_refl in Hq).
  rewrite lookup_mkdirs.
  - by apply lookup_outside.
  - change (Fs.ancestors FILE_DIR) with ["."].
    by intros ->%list_elem_of_singleton.
Qed.



End reset.

Section reset_runs.

#[local] Existing Instance Demo.demo.



(** The first run leaves the three files of [test]; the reset that opens the
    second run leaves an empty ./weather. *)
Example second_run_reset :
  main (Demo.start [x01]) = Ok tt Runs.first_run ∧
  w_fs Runs.first_run =
    {[ "weather_config.yml" := File [x01]; "." := Dir; "./weather" := Dir;
       "./weather/test" := Dir;
       "./weather/test/yr.png" := File [x03; x02];
       "./weather/test/shmu_ecmwf.png" := File [x03; x02];
       "./weather/test/all.png" := File [x03; xcc] ]} ∧
  w_fs (world_of (reset_output Runs.first_run)) =
    {[ "weather_config.yml" := File [x01]; "." := Dir; "./weather" := Dir ]}.
Proof. split; [by_run |]. split; by_run. Qed.

End reset_runs.

(** ** Failures *)

Section propagation.

Context `{P : Platform}.

(** [m] completes from [w], and [k] holds of its value and the world it
    leaves. *)
Definition after {A} (m : M A) (w : world) (k : A → world → Prop) : Prop :=
  ∃ a w1, m w = Ok a w1 ∧ k a w1.





End propagation.


#[local] Set Warnings "-clear-no-such-hyp".

Section propagation_claims.

Context `{P : Platform}.






End propagation_claims.

Section propagation_runs.

#[local] Existing Instance Demo.demo.

(** On a page without the cookie banner the lookup raises and the extractor
    returns the image all the same. *)
Example cookie_absence_tolerated :
  let url := "https://www.meteoblue.com/valley" in
  let w1 := world_of (call (browser_get url) (Demo.start [])) in
  find_element_by_id "accept_all_cookies" w1 = Raise NoSuchElementException w1 ∧
  ∃ w', scrape_meteoblue url (Demo.start []) = Ok [x03; x02] w'.
Proof. split; [by_run |]. eexists. vm_compute. reflexivity. Qed.

(** The second URL of [ridge] never finishes loading: the wait raises
    TimeoutException and the run ends with it, yr.png of [ridge] written,
    no all.png, and no directory for the location listed after it. *)
Example timeout_ends_run :
  main (Demo.start [x04]) = Raise TimeoutException Runs.ridge_run ∧
  w_fs Runs.ridge_run =
    {[ "weather_config.yml" := File [x04]; "." := Dir; "./weather" := Dir;
       "./weather/ridge" := Dir;
       "./weather/ridge/yr.png" := File [x03; x02] ]}.
Proof. split; by_run. Qed.

(** A yr.no page without the graph panel: the lookup raises and so does the
    location. *)
Example missing_element_ends_location :
  ∃ w', scrape_and_save "gap" ["https://www.yr.no/no-graph"] (Demo.start []) =
        Raise NoSuchElementException w'.
Proof. eexists. vm_compute. reflexivity. Qed.

End propagation_runs.

(** ** What a location's processing does to the file system *)

Section footprint.

Context `{P : Platform}.

(** Two entries of the same kind: both directories or both files. *)
Definition same_kind (n n' : node) : bool :=
  match n, n' with
  | Dir, Dir => true
  | File _, File _ => true
  | _, _ => false
  end.

(** Every path of [fs] is in [fs'] with an entry of the same kind. *)
Definition kept (fs fs' : gmap string node) : Prop :=
  ∀ q n, fs !! q = Some n → ∃ n', fs' !! q = Some n' ∧ same_kind n n' = true.


Lemma same_kind_refl n : same_kind n n = true.
Proof. by destruct n. Qed.

Lemma same_kind_trans n1 n2 n3 :
  same_kind n1 n2 = true → same_kind n2 n3 = true → same_kind n1 n3 = true.
Proof. by destruct n1, n2, n3. Qed.

Lemma kept_refl fs : kept fs fs.
Proof. intros q n Hq. exists n. by rewrite same_kind_refl. Qed.

Lemma kept_trans fs1 fs2 fs3 : kept fs1 fs2 → kept fs2 fs3 → kept fs1 fs3.
Proof.
  intros H12 H23 q n Hq. destruct (H12 q n Hq) as (n2 & Hq2 & Hk2).
  destruct (H23 q n2 Hq2) as (n3 & Hq3 & Hk3). exists n3.
  split; [done |]. by eapply same_kind_trans.
Qed.

Lemma kept_mkdirs fs l : kept fs (foldl Fs.mkdir_missing fs l).
Proof.
  revert fs. induction l as [|a l IH]; intros fs; [apply kept_refl |].
  simpl. eapply kept_trans; [| apply IH].
  intros q n Hq. unfold Fs.mkdir_missing.
  destruct (fs !! a) eqn:Ha.
  - exists n. by rewrite same_kind_refl.
  - exists n. rewrite lookup_insert_ne by congruence.
    by rewrite same_kind_refl.
Qed.

Lemma kept_makedirs p fs fs' : Fs.makedirs p fs = inr fs' → kept fs fs'.
Proof.
  unfold Fs.makedirs. destruct (fs !! p) eqn:Hp; [done |]. intros [= <-].
  intros q n Hq. destruct (kept_mkdirs fs (Fs.ancestors p) q n Hq)
    as (n' & Hq' & Hk).
  exists n'. split; [| done]. rewrite lookup_insert_ne; [done |].
  intros <-. congruence.
Qed.

Lemma kept_write p data fs fs' : Fs.write p data fs = inr fs' → kept fs fs'.
Proof.
  unfold Fs.write. intros Hw q n Hq. destruct (decide (q = p)) as [->|Hne].
  - destruct (fs !! p) as [[|old]|] eqn:Hp; try done;
      injection Hw as <-; injection Hq as <-;
      exists (File data); by rewrite lookup_insert_eq.
  - exists n. rewrite same_kind_refl. split; [| done].
    destruct (fs !! p) as [[|old]|]; try done;
      injection Hw as <-; by rewrite lookup_insert_ne.
Qed.





(** A relation between file systems that holds along a location's
    processing as soon as it holds of its two kinds of steps. *)
Section along.

Variable R : gmap string node → gmap string node → Prop.
Variable dest_dir : string.
Hypothesis R_refl : ∀ fs, R fs fs.
Hypothesis R_trans : ∀ fs1 fs2 fs3, R fs1 fs2 → R fs2 fs3 → R fs1 fs3.
Hypothesis R_makedirs : ∀ fs fs', Fs.makedirs dest_dir fs = inr fs' → R fs fs'.
Hypothesis R_write :
  ∀ p data fs fs',
    Fs.below dest_dir p = true → Fs.write p data fs = inr fs' → R fs fs'.
Hypothesis dest_dir_ne : dest_dir ≠ EmptyString.

Lemma write_file_along p data w :
  Fs.below dest_dir p = true →
  R (w_fs w) (w_fs (world_of (write_file p data w))).
Proof.
  intros Hp. unfold write_file, fs_update.
  destruct (Fs.write p data (w_fs w)) eqn:Hw; simpl; [done |].
  by eapply R_write.
Qed.

Lemma scrape_loop_along urls acc w :
  R (w_fs w) (w_fs (world_of (scrape_loop dest_dir urls acc w))).
Proof.
  revert acc w. induction urls as [|url urls IH]; intros acc w; [done |].
  cbn [scrape_loop]. unfold bind at 1.
  destruct (scrape_site url w) as [[[image f]|] w1|e w1] eqn:Hsite.
  - apply scrape_site_Some in Hsite as (Hf & Hfs & _).
    destruct (saved_as_below dest_dir url f dest_dir_ne Hf) as [Hbelow _].
    pose proof (write_file_along (saved_as dest_dir f) image w1 Hbelow) as Hw.
    rewrite Hfs in Hw. unfold bind. fold (saved_as dest_dir f).
    destruct (write_file (saved_as dest_dir f) image w1) as [[] w2|e w2];
      simpl in Hw; [| done].
    eapply R_trans; [exact Hw | apply IH].
  - apply scrape_site_None in Hsite as (_ & ->).
    apply (IH acc {| w_fs := w_fs w; w_stderr := _; w_env := w_env w |}).
  - apply scrape_site_Raise in Hsite as (_ & Hfs & _). simpl. by rewrite Hfs.
Qed.

Lemma combine_images_same paths w :
  world_of (combine_images paths w) = w.
Proof.
  destruct (combine_images paths w) as [c w'|e w'] eqn:Hc; simpl.
  - by apply combine_images_Ok in Hc as [-> _].
  - unfold combine_images in Hc.
    apply bind_Raise_inv in Hc as [Hc | (images & w1 & Ho & Hc)].
    { by apply open_all_Raise in Hc. }
    apply open_all_Ok in Ho as [-> _].
    apply bind_Raise_inv in Hc as [Hc | (m & w1 & Hm & Hc)].
    { by apply py_max_Raise in Hc as (_ & _ & ->). }
    apply py_max_Ok in Hm as [-> _].
    apply bind_Raise_inv in Hc as [Hc | (c & w1 & _ & Hc)]; [| done].
    unfold Image_new in Hc.
    destruct (_ || _); [| done]. by injection Hc as _ <-.
Qed.

End along.

Lemma scrape_and_save_along (R : gmap string node → gmap string node → Prop)
    location urls w :
  let dest_dir := path_join FILE_DIR location in
  (∀ fs, R fs fs) →
  (∀ fs1 fs2 fs3, R fs1 fs2 → R fs2 fs3 → R fs1 fs3) →
  (∀ fs fs', Fs.makedirs dest_dir fs = inr fs' → R fs fs') →
  (∀ p data fs fs',
     Fs.below dest_dir p = true → Fs.write p data fs = inr fs' → R fs fs') →
  R (w_fs w) (w_fs (world_of (scrape_and_save location urls w))).
Proof.
  intros dest_dir R_refl R_trans R_makedirs R_write.
  pose proof (dest_dir_nonempty location) as Hd. fold dest_dir in Hd.
  unfold scrape_and_save. fold dest_dir. unfold bind at 1.
  unfold os_makedirs, fs_update.
  destruct (Fs.makedirs dest_dir (w_fs w)) as [e|fs1] eqn:Hmk; [apply R_refl |].
  apply R_trans with fs1; [by apply R_makedirs |].
  pose proof (scrape_loop_along R dest_dir R_refl R_trans R_write Hd urls []
                (set_fs fs1 w)) as Hloop. simpl in Hloop.
  unfold bind at 1.
  destruct (scrape_loop dest_dir urls [] (set_fs fs1 w)) as [l w2|e w2];
    simpl in Hloop; [| done].
  apply R_trans with (w_fs w2); [done |].
  unfold bind. pose proof (combine_images_same l w2) as Hc.
  destruct (combine_images l w2) as [c w3|e w3]; simpl in Hc; subst w3;
    [| apply R_refl].
  apply (write_file_along R dest_dir R_refl R_write).
  by apply all_png_below.
Qed.



(** X2: Whatever the outcome, a location's processing removes nothing: a path
    that held a directory holds a directory afterwards, one that held a file
    holds a file. *)
Theorem location_keeps_entries location urls w q n :
  w_fs w !! q = Some n →
  ∃ n', w_fs (world_of (scrape_and_save location urls w)) !! q = Some n' ∧
        same_kind n n' = true.
Proof.
  apply (scrape_and_save_along kept location urls w kept_refl kept_trans
           (kept_makedirs _) (λ p data fs fs' _, kept_write p data fs fs')).
Qed.

End footprint.

(** ** Runs that complete *)

Section complete_runs.

Context `{P : Platform}.

Definition dir_of (l : location) : string := path_join FILE_DIR (name l).

Definition unknown_urls (urls : list string) : list string :=
  filter (λ url, file_name_for url = None) urls.

Lemma scrape_and_save_kept location urls w w' :
  scrape_and_save location urls w = Ok tt w' → kept (w_fs w) (w_fs w').
Proof.
  intros Hrun q n Hq.
  pose proof (scrape_and_save_along kept location urls w kept_refl kept_trans
    (kept_makedirs _) (λ p data fs fs' _, kept_write p data fs fs') q n Hq) as H.
  by rewrite Hrun in H.
Qed.

Lemma scrape_and_save_recognised location urls w w' :
  scrape_and_save location urls w = Ok tt w' →
  ∃ url, url ∈ urls ∧ is_Some (file_name_for url).
Proof.
  intros (fs1 & images & max_width & _ & Hnames & Hopen & [Hmax _] & _)
    %scrape_and_save_Ok.
  destruct images as [|image images]; [by apply elem_of_nil in Hmax |].
  apply Forall2_length in Hopen. rewrite Hnames, length_fmap in Hopen.
  destruct (omap file_name_for urls) as [|f fs] eqn:Hf; [done |].
  assert (Hin : f ∈ omap file_name_for urls) by (rewrite Hf; left).
  apply list_elem_of_omap in Hin as (url & Hurl & Hfn). exists url. eauto.
Qed.

Lemma for_locations_Ok locations w w' :
  for_locations locations w = Ok tt w' →
  kept (w_fs w) (w_fs w') ∧
  NoDup (dir_of <$> locations) ∧
  w_stderr w' = w_stderr w ++ (warning <$> unknown_urls (locations ≫= urls)) ∧
  Forall (λ l,
    w_fs w !! dir_of l = None ∧
    w_fs w' !! dir_of l = Some Dir ∧
    (∃ data, w_fs w' !! path_join (dir_of l) "all.png" = Some (File data)) ∧
    ∃ url, url ∈ urls l ∧ is_Some (file_name_for url)) locations.
Proof.
  revert w. induction locations as [|l locations IH]; intros w.
  - intros [= <-]. split; [apply kept_refl |]. split; [constructor |].
    split; [| done]. simpl. by rewrite app_nil_r.
  - cbn [for_locations]. intros ([] & w1 & Hl & Hrest)%bind_Ok_inv.
    destruct (IH w1 Hrest) as (Hkept & Hnd & Hstderr & Hall).
    pose proof (scrape_and_save_kept _ _ _ _ Hl) as Hkept1.
    destruct (directory_after _ _ _ _ Hl)
      as (Hnone & Hdir & _ & [_ [data Hdata]] & _).
    split; [by eapply kept_trans |]. split; [| split; [| constructor]].
    + rewrite fmap_cons. constructor; [| done].
      intros (l' & Heq & Hl')%list_elem_of_fmap.
      rewrite Forall_forall in Hall. destruct (Hall l' Hl') as (Hnone' & _).
      fold (dir_of l) in Hdir. rewrite Heq in Hdir. congruence.
    + rewrite Hstderr.
      apply scrape_and_save_Ok in Hl as (_ & _ & _ & _ & _ & _ & _ & _ & ->).
      rewrite <- app_assoc. f_equal. unfold unknown_urls. simpl.
      by rewrite filter_app, fmap_app.
    + split; [done |].
      destruct (Hkept _ _ Hdir) as ([|?] & Hdir' & Hk); [| done].
      destruct (Hkept _ _ Hdata) as ([|data'] & Hdata' & Hk'); [done |].
      split; [done |]. split; [by exists data' |].
      by eapply scrape_and_save_recognised.
    + eapply Forall_impl; [exact Hall |]. intros l' (Hnone' & H).
      split; [| done].
      destruct (w_fs w !! dir_of l') as [n|] eqn:Hq; [| done].
      destruct (Hkept1 _ _ Hq) as (n' & Hq' & _). congruence.
Qed.

Lemma fs_update_Ok f w w' :
  fs_update f w = Ok tt w' →
  ∃ fs', f (w_fs w) = inr fs' ∧ w' = set_fs fs' w.
Proof.
  unfold fs_update. destruct (f (w_fs w)) as [e|fs']; [done |].
  intros [= <-]. eauto.
Qed.

Lemma reset_output_Ok_inv w w' :
  reset_output w = Ok tt w' →
  w_fs w' !! FILE_DIR = Some Dir ∧ w_stderr w' = w_stderr w.
Proof.
  unfold reset_output. intros (present & w1 & Hex & H)%bind_Ok_inv.
  injection Hex as <- <-.
  apply bind_Ok_inv in H as ([] & w2 & Hrm & Hmk).
  apply os_makedirs_Ok in Hmk as (fs1 & Hmk & ->).
  destruct (makedirs_inv _ _ _ Hmk) as [[_ [=]] | (_ & fs1' & [= <-] & Hdir & _)].
  split; [done |]. simpl.
  destruct (bool_decide _).
  - by apply fs_update_Ok in Hrm as (fs' & _ & ->).
  - by injection Hrm as <-.
Qed.

Lemma main_Ok w w' :
  main w = Ok tt w' →
  ∃ config locations w1 w2 w3,
    w_fs w !! "weather_config.yml" = Some (File config) ∧
    yaml_safe_load config = inr locations ∧
    reset_output w = Ok tt w1 ∧
    call webdriver_Firefox w1 = Ok tt w2 ∧
    for_locations locations w2 = Ok tt w3 ∧
    call browser_quit w3 = Ok tt w'.
Proof.
  unfold main. intros (config & w0 & Hread & H)%bind_Ok_inv.
  assert (w0 = w ∧ w_fs w !! "weather_config.yml" = Some (File config))
    as [-> Hcfg].
  { unfold read_file, fs_query, Fs.read in Hread.
    destruct (w_fs w !! "weather_config.yml") as [[|data]|]; try done.
    by injection Hread as <- <-. }
  apply bind_Ok_inv in H as (locs & w0 & Hyaml & H).
  destruct (yaml_safe_load config) as [e|locations] eqn:Hy; [done |].
  injection Hyaml as <- <-.
  apply bind_Ok_inv in H as ([] & w1 & Hreset & H).
  apply bind_Ok_inv in H as ([] & w2 & Hfirefox & H).
  apply bind_Ok_inv in H as ([] & w3 & Hloop & Hquit).
  by exists config, locations, w1, w2, w3.
Qed.

(** X3: When the script completes, ./weather is a directory and every location
    of the configuration has its directory in it, with all.png in it, and at
    least one URL of a known site. *)
Theorem complete_run_outputs w w' :
  main w = Ok tt w' →
  ∃ config locations,
    w_fs w !! "weather_config.yml" = Some (File config) ∧
    yaml_safe_load config = inr locations ∧
    w_fs w' !! FILE_DIR = Some Dir ∧
    Forall (λ l,
      w_fs w' !! path_join FILE_DIR (name l) = Some Dir ∧
      (∃ data, w_fs w' !! path_join (path_join FILE_DIR (name l)) "all.png" =
               Some (File data)) ∧
      ∃ url, url ∈ urls l ∧ is_Some (file_name_for url)) locations.
Proof.
  intros (config & locations & w1 & w2 & w3 & Hcfg & Hyaml & Hreset & Hff &
          Hloop & Hquit)%main_Ok.
  exists config, locations. split; [done |]. split; [done |].
  destruct (reset_output_Ok_inv _ _ Hreset) as [Hroot _].
  destruct (env_only_Ok _ _ _ _ (env_only_call _) Hff) as [Hfs2 _].
  destruct (env_only_Ok _ _ _ _ (env_only_call _) Hquit) as [Hfs' _].
  destruct (for_locations_Ok _ _ _ Hloop) as (Hkept & _ & _ & Hall).
  rewrite Hfs'. split.
  - rewrite <- Hfs2 in Hroot.
    by destruct (Hkept _ _ Hroot) as ([|?] & Hroot' & Hk).
  - eapply Forall_impl; [exact Hall |]. by intros l (_ & H).
Qed.



End complete_runs.

(** ** The start of a run *)

Section run_start.

Context `{P : Platform}.

(** X6: A configuration file that is missing, is a directory or does not parse
    ends the run at once: nothing is removed, nothing is made and the
    browser is not started. *)
Theorem config_failure_changes_nothing w :
  (w_fs w !! "weather_config.yml" = None → main w = Raise FileNotFoundError w) ∧
  (w_fs w !! "weather_config.yml" = Some Dir →
   main w = Raise IsADirectoryError w) ∧
  (∀ config e,
     w_fs w !! "weather_config.yml" = Some (File config) →
     yaml_safe_load config = inl e → main w = Raise e w).
Proof.
  unfold main, bind, read_file, fs_query, Fs.read.
  split; [| split].
  - by intros ->.
  - by intros ->.
  - intros config e -> Hyaml. by rewrite Hyaml.
Qed.

Lemma main_loaded config locations w :
  w_fs w !! "weather_config.yml" = Some (File config) →
  yaml_safe_load config = inr locations →
  main w =
  bind reset_output
    (λ _, bind (call webdriver_Firefox)
       (λ _, bind (for_locations locations) (λ _, call browser_quit))) w.
Proof.
  intros Hcfg Hyaml. unfold main, read_file, fs_query, Fs.read.
  unfold bind at 1. rewrite Hcfg. unfold bind at 1. by rewrite Hyaml.
Qed.

(** X7: A regular file at ./weather: the reset raises NotADirectoryError, the
    file left as it is, and the run ends there. *)
Theorem reset_refuses_file w data :
  w_fs w !! FILE_DIR = Some (File data) →
  reset_output w = Raise NotADirectoryError w ∧
  ∀ config locations,
    w_fs w !! "weather_config.yml" = Some (File config) →
    yaml_safe_load config = inr locations →
    main w = Raise NotADirectoryError w.
Proof.
  intros Hfile.
  assert (Hreset : reset_output w = Raise NotADirectoryError w).
  { unfold reset_output, bind, os_path_exists.
    rewrite bool_decide_eq_true_2 by (rewrite Hfile; eauto).
    unfold shutil_rmtree, fs_update, Fs.rmtree. by rewrite Hfile. }
  split; [done |]. intros config locations Hcfg Hyaml.
  rewrite (main_loaded config locations w Hcfg Hyaml). by apply bind_raise.
Qed.

Lemma reset_fs_dot fs :
  reset_fs fs !! "." = Some (default Dir (fs !! ".")).
Proof.
  unfold reset_fs. rewrite lookup_insert_ne by done.
  change (Fs.ancestors FILE_DIR) with ["."]. simpl. unfold Fs.mkdir_missing.
  rewrite (lookup_outside fs ".") by done.
  destruct (fs !! ".") as [n|] eqn:Hdot; simpl; [| apply lookup_insert_eq].
  by rewrite (lookup_outside fs ".").
Qed.

Lemma reset_fs_rooted fs : rooted (reset_fs fs).
Proof. intros q _ _. apply reset_fs_root. Qed.

Lemma reset_fs_twice fs : reset_fs (reset_fs fs) = reset_fs fs.
Proof.
  apply map_eq. intros q.
  destruct (Fs.within FILE_DIR q) eqn:Hq.
  - unfold Fs.within in Hq. apply orb_true_iff in Hq as [Hq | Hq].
    + apply bool_decide_eq_true_1 in Hq as ->. by rewrite !reset_fs_root.
    + by rewrite !reset_fs_below.
  - destruct (decide (q = ".")) as [-> | Hdot].
    + rewrite !reset_fs_dot. by destruct (fs !! ".").
    + by rewrite !reset_fs_outside.
Qed.

(** X8: The reset done twice leaves what the reset done once leaves. *)
Theorem reset_twice w :
  rooted (w_fs w) →
  ∃ w1, reset_output w = Ok tt w1 ∧ reset_output w1 = Ok tt w1.
Proof.
  intros Hrooted. exists (set_fs (reset_fs (w_fs w)) w).
  split; [by apply reset_output_Ok |].
  rewrite reset_output_Ok by apply reset_fs_rooted.
  simpl. unfold set_fs. simpl. by rewrite reset_fs_twice.
Qed.

Lemma absolute_outside location :
  Str.startswith location "/" = true → Fs.within FILE_DIR location = false.
Proof.
  intros [post ->]%startswith_is_prefix.
  unfold Fs.within, Fs.below. by rewrite bool_decide_eq_false_2.
Qed.

(** X9: A location whose name starts with '/' has that path for its directory,
    not one in ./weather: a completed run has made the directory at the
    name itself and put all.png there. *)
Theorem absolute_location_directory location urls w w' :
  Str.startswith location "/" = true →
  scrape_and_save location urls w = Ok tt w' →
  path_join FILE_DIR location = location ∧
  Fs.within FILE_DIR location = false ∧
  w_fs w' !! location = Some Dir ∧
  ∃ data, w_fs w' !! path_join location "all.png" = Some (File data).
Proof.
  intros Habs Hrun.
  pose proof (path_join_absolute FILE_DIR location Habs) as Hjoin.
  destruct (directory_after location urls w w' Hrun)
    as (_ & Hdir & _ & [_ Hall] & _).
  rewrite Hjoin in Hdir, Hall.
  split; [done |]. split; [by apply absolute_outside | done].
Qed.

End run_start.

(** ** The layout of the composite *)

Section layout.

Context `{P : Platform}.

Lemma py_sum_rows (images : list image) :
  py_sum ((λ im, height im + 100) <$> images) =
  py_sum (height <$> images) + 100 * Z.of_nat (length images).
Proof.
  induction images as [|image images IH]; [done |].
  rewrite !fmap_cons, !py_sum_cons, IH. simpl length. lia.
Qed.

Lemma py_sum_rows_nonneg (images : list image) :
  Forall (λ im, 0 ≤ height im) images →
  0 ≤ py_sum ((λ im, height im + 100) <$> images).
Proof.
  induction 1 as [|image images Hh _ IH]; [done |].
  rewrite fmap_cons, py_sum_cons. lia.
Qed.

(** X10: Every image of the composite lies within its width, with margins left
    and right that differ by at most one pixel, the wider one on the
    right. *)
Theorem pasted_within_width paths w combined_image w' i image x y :
  combine_images paths w = Ok combined_image w' →
  pastes combined_image !! i = Some (image, (x, y)) →
  0 ≤ x ∧ x + width image ≤ (size combined_image).1 ∧
  0 ≤ ((size combined_image).1 - (x + width image)) - x ≤ 1.
Proof.
  intros (_ & images & max_width & _ & [_ Hmax] & ->)%combine_images_Ok Hi.
  apply composite_lookup in Hi as [Him [= -> _]].
  rewrite composite_size_eq. simpl.
  assert (width image ≤ max_width).
  { apply Hmax. apply list_elem_of_fmap. exists image.
    split; [done |]. by eapply list_elem_of_lookup_2. }
  pose proof (Z.div_mod (max_width - width image) 2 ltac:(done)).
  pose proof (Z.mod_pos_bound (max_width - width image) 2 ltac:(done)).
  change (?a `div` ?b) with (a / b) in *.
  change (?a `mod` ?b) with (a mod b) in *. lia.
Qed.

(** X11: With images of no negative height: every image of the composite lies
    within its height, the next one starts 100 rows below its end, and 100
    rows are left below the last one. *)
Theorem pasted_within_height paths w combined_image w' i image x y :
  (∀ data img, png_decode data = Some img → 0 ≤ height img) →
  combine_images paths w = Ok combined_image w' →
  pastes combined_image !! i = Some (image, (x, y)) →
  0 ≤ y ∧ y + height image + 100 ≤ (size combined_image).2 ∧
  (∀ image' x' y',
     pastes combined_image !! S i = Some (image', (x', y')) →
     y' = y + height image + 100) ∧
  (pastes combined_image !! S i = None →
   y + height image + 100 = (size combined_image).2).
Proof.
  intros Hdecode (_ & images & max_width & Hopen & _ & ->)%combine_images_Ok Hi.
  assert (Hnonneg : Forall (λ im, 0 ≤ height im) images).
  { apply Forall_forall. intros im Him.
    apply list_elem_of_lookup in Him as [j Hj].
    destruct (Forall2_lookup_r _ _ _ _ _ Hopen Hj) as (p & _ & data & _ & Hd).
    by eapply Hdecode. }
  apply composite_lookup in Hi as [Him [= _ ->]].
  rewrite composite_size_eq. simpl. rewrite <- py_sum_rows.
  pose proof (take_drop_middle images i image Him) as Hsplit.
  assert (Hrows : py_sum ((λ im, height im + 100) <$> images) =
                  py_sum ((λ im, height im + 100) <$> take i images) +
                  (height image + 100) +
                  py_sum ((λ im, height im + 100) <$> drop (S i) images)).
  { rewrite <- Hsplit at 1. rewrite fmap_app, py_sum_app, fmap_cons, py_sum_cons.
    lia. }
  assert (Hbefore : 0 ≤ py_sum ((λ im, height im + 100) <$> take i images))
    by by apply py_sum_rows_nonneg, Forall_take.
  assert (Hafter : 0 ≤ py_sum ((λ im, height im + 100) <$> drop (S i) images))
    by by apply py_sum_rows_nonneg, Forall_drop.
  split; [done |]. split; [lia |]. split.
  - intros image' x' y' Hnext.
    apply composite_lookup in Hnext as [_ [= _ ->]].
    rewrite (take_S_r images i image Him), fmap_app, py_sum_app.
    rewrite fmap_cons, py_sum_cons, fmap_nil.
    change (py_sum []) with 0. lia.
  - intros Hlast.
    assert (drop (S i) images = []) as Hnil.
    { apply drop_ge.
      assert (Hlen : length (pastes (composite max_width images)).*1 =
                     length images) by (by rewrite composite_pastes).
      rewrite length_fmap in Hlen.
      apply lookup_ge_None in Hlast. lia. }
    rewrite Hnil, fmap_nil in Hrows. change (py_sum []) with 0 in Hrows. lia.
Qed.

End layout.

(** ** The files of a location *)

Section overwrite.

Context `{P : Platform}.

Lemma save_all_app log1 log2 fs :
  save_all (log1 ++ log2) fs = save_all log2 (save_all log1 fs).
Proof. unfold save_all. apply foldl_app. Qed.

Lemma save_all_cons p b log fs :
  save_all ((p, b) :: log) fs = save_all log (<[p := File b]> fs).
Proof. done. Qed.

(** X12: After a location completes, a site file holds what was written to it
    last: of two URLs that derive one file name, the image of the later. *)
Theorem site_file_holds_last location urls w w' earlier p image later :
  scrape_and_save location urls w = Ok tt w' →
  scrape_results location urls w = earlier ++ (p, image) :: later →
  p ∉ later.*1 →
  w_fs w' !! p = Some (File image).
Proof.
  intros (fs1 & images & max_width & _ & Hnames & _ & _ & -> & _)
    %scrape_and_save_Ok Hlog Hlater.
  assert (Hp : p ∈ (scrape_results location urls w).*1).
  { rewrite Hlog, fmap_app, fmap_cons. apply elem_of_app. right. left. }
  rewrite lookup_insert_ne.
  - rewrite Hlog, save_all_app, save_all_cons.
    rewrite save_all_notin by done. apply lookup_insert_eq.
  - intros <-. rewrite Hnames in Hp. by apply saved_as_not_all in Hp.
Qed.

End overwrite.

(** ** The extractors *)

Section extractors.

Context `{P : Platform}.


Lemma until_loop_Ok polls (method : M bool) w b w' :
  until_loop polls method w = Ok b w' →
  b = true ∧ ∃ w1, method w1 = Ok true w'.
Proof.
  revert w. induction polls as [|polls IH]; intros w; simpl;
    destruct (method w) as [[|] w1|e w1] eqn:Hm; try done.
  - intros [= <- <-]. eauto.
  - by destruct e.
  - intros [= <- <-]. eauto.
  - apply IH.
  - destruct e; try done. apply IH.
Qed.

Lemma has_css_class_true locator css_class w w' :
  Element_has_css_class locator css_class w = Ok true w' →
  ∃ element w1 cls,
    call (find_element locator) w = Ok element w1 ∧
    call (get_attribute element "class") w1 = Ok (Some cls) w' ∧
    Str.occurs_in css_class cls.
Proof.
  unfold Element_has_css_class.
  intros (element & w1 & Hfind & H)%bind_Ok_inv.
  apply bind_Ok_inv in H as ([cls|] & w2 & Hattr & H); [| done].
  injection H as Hc <-. exists element, w1, cls.
  split; [done |]. split; [done |]. by apply contains_occurs_in.
Qed.

(** X14: The meteoblue extractor returns only after a poll has found the
    element of class 'image_lazyload' with 'loaded' in its class attribute;
    what it returns is what the fetch of the URL in the 'src' attribute of
    that element, looked up again right after that poll, has given. *)
Theorem meteoblue_waits_for_loaded url w data w' :
  scrape_meteoblue url w = Ok data w' →
  ∃ w1 element w2 cls w3 image w4 image_url w5,
    call (find_element (By_CLASS_NAME, "image_lazyload")) w1 = Ok element w2 ∧
    call (get_attribute element "class") w2 = Ok (Some cls) w3 ∧
    Str.occurs_in "loaded" cls ∧
    find_element_by_class_name "image_lazyload" w3 = Ok image w4 ∧
    call (get_attribute image "src") w4 = Ok image_url w5 ∧
    call (urlopen_read image_url) w5 = Ok data w'.
Proof.
  unfold scrape_meteoblue.
  intros (_ & w0 & _ & H)%bind_Ok_inv.
  apply bind_Ok_inv in H as (_ & w0' & _ & H).
  apply bind_Ok_inv in H as (b & w3 & Hwait & H).
  apply until_loop_Ok in Hwait as (_ & w1 & Hpoll).
  apply has_css_class_true in Hpoll as (element & w2 & cls & Hfind & Hattr & Hcls).
  apply bind_Ok_inv in H as (image & w4 & Himage & H).
  apply bind_Ok_inv in H as (image_url & w5 & Hsrc & Hfetch).
  by exists w1, element, w2, cls, w3, image, w4, image_url, w5.
Qed.

(** X15: An element without a class attribute makes the condition raise
    TypeError, which the wait does not ignore: it ends at that poll. *)
Theorem missing_class_attribute locator css_class timeout w element w1 w2 :
  call (find_element locator) w = Ok element w1 →
  call (get_attribute element "class") w1 = Ok None w2 →
  Element_has_css_class locator css_class w = Raise TypeError w2 ∧
  WebDriverWait_until timeout (Element_has_css_class locator css_class) w =
    Raise TypeError w2.
Proof.
  intros Hfind Hattr.
  assert (Hc : Element_has_css_class locator css_class w = Raise TypeError w2).
  { unfold Element_has_css_class.
    by rewrite (bind_ok _ _ _ _ _ Hfind), (bind_ok _ _ _ _ _ Hattr). }
  split; [done |]. unfold WebDriverWait_until.
  destruct (poll_budget timeout); simpl; by rewrite Hc.
Qed.

End extractors.

(** ** More runs on the small platform *)

Module MoreRuns.

Import Demo.


(** A disk with a regular file where the output directory goes. *)
Definition blocked : world :=
  set_fs (<[FILE_DIR := File []]> (w_fs (start [x01]))) (start [x01]).

(** The files of [test] as saved, the image built from them, and the world
    after a run on a location with an absolute name. *)
Definition test_files : list string :=
  ["./weather/test/yr.png"; "./weather/test/shmu_ecmwf.png"].
Definition test_built : canvas :=
  Eval vm_compute in
    match combine_images test_files Runs.test_done with
    | Ok combined_image _ => combined_image
    | Raise _ _ => {| mode := ""; size := (0, 0); color := ""; pastes := [] |}
    end.
Definition absolute_done : world :=
  Eval vm_compute in
    world_of (scrape_and_save "/srv/out" Runs.test_urls (start [])).

(** The world the meteoblue extractor ends in on a page that loads. *)
Definition valley_fetched : world :=
  Eval vm_compute in
    world_of (scrape_meteoblue "https://www.meteoblue.com/valley" (start [])).

End MoreRuns.

Section more_runs.

#[local] Existing Instance Demo.demo.



Lemma location_keeps_entries_witness :
  w_fs (Demo.start []) !! "weather_config.yml" = Some (File []) ∧
  ∃ n', w_fs (world_of (scrape_and_save "test" Runs.test_urls (Demo.start [])))
          !! "weather_config.yml" = Some n' ∧
        same_kind (File []) n' = true.
Proof.
  split; [done |].
  apply (location_keeps_entries "test" Runs.test_urls (Demo.start [])
           "weather_config.yml" (File []) eq_refl).
Defined.

Lemma first_run_completes : main (Demo.start [x01]) = Ok tt Runs.first_run.
Proof. by_run. Qed.

Lemma complete_run_outputs_witness :
  main (Demo.start [x01]) = Ok tt Runs.first_run ∧
  ∃ config locations,
    w_fs (Demo.start [x01]) !! "weather_config.yml" = Some (File config) ∧
    yaml_safe_load config = inr locations ∧
    w_fs Runs.first_run !! FILE_DIR = Some Dir ∧
    Forall (λ l,
      w_fs Runs.first_run !! path_join FILE_DIR (name l) = Some Dir ∧
      (∃ data,
         w_fs Runs.first_run !! path_join (path_join FILE_DIR (name l)) "all.png" =
         Some (File data)) ∧
      ∃ url, url ∈ urls l ∧ is_Some (file_name_for url)) locations.
Proof.
  split; [apply first_run_completes |].
  apply (complete_run_outputs (Demo.start [x01]) Runs.first_run
           first_run_completes).
Defined.




(** A location with a URL of no known site between two of known sites
    completes, one warning written. *)
Example warning_in_completed_location :
  ∃ w', scrape_and_save "mixed"
          ["https://www.yr.no/en/graph/x"; "https://example.org/a";
           "https://www.shmu.sk/?page=1"] (Demo.start []) = Ok tt w' ∧
        w_stderr w' = [warning "https://example.org/a"].
Proof. eexists. split; [vm_compute; reflexivity | done]. Qed.

Lemma reset_refuses_file_witness :
  w_fs MoreRuns.blocked !! FILE_DIR = Some (File []) ∧
  reset_output MoreRuns.blocked = Raise NotADirectoryError MoreRuns.blocked ∧
  ∀ config locations,
    w_fs MoreRuns.blocked !! "weather_config.yml" = Some (File config) →
    yaml_safe_load config = inr locations →
    main MoreRuns.blocked = Raise NotADirectoryError MoreRuns.blocked.
Proof.
  split; [done |]. apply (reset_refuses_file MoreRuns.blocked [] eq_refl).
Defined.

Lemma start_rooted : rooted (w_fs (Demo.start [])).
Proof. intros q Hq [n Hn]. simpl in Hn.
  apply lookup_singleton_Some in Hn as [<- _]. done.
Qed.

Lemma reset_twice_witness :
  rooted (w_fs (Demo.start [])) ∧
  ∃ w1, reset_output (Demo.start []) = Ok tt w1 ∧ reset_output w1 = Ok tt w1.
Proof.
  split; [apply start_rooted |].
  apply (reset_twice (Demo.start []) start_rooted).
Defined.

Lemma absolute_completes :
  scrape_and_save "/srv/out" Runs.test_urls (Demo.start []) =
  Ok tt MoreRuns.absolute_done.
Proof. by_run. Qed.

Lemma absolute_location_directory_witness :
  (Str.startswith "/srv/out" "/" = true ∧
   scrape_and_save "/srv/out" Runs.test_urls (Demo.start []) =
   Ok tt MoreRuns.absolute_done) ∧
  path_join FILE_DIR "/srv/out" = "/srv/out" ∧
  Fs.within FILE_DIR "/srv/out" = false ∧
  w_fs MoreRuns.absolute_done !! "/srv/out" = Some Dir ∧
  ∃ data, w_fs MoreRuns.absolute_done !! path_join "/srv/out" "all.png" =
          Some (File data).
Proof.
  split; [split; [done | apply absolute_completes] |].
  apply (absolute_location_directory "/srv/out" Runs.test_urls (Demo.start [])
           MoreRuns.absolute_done eq_refl absolute_completes).
Defined.

Lemma test_built_from_files :
  combine_images MoreRuns.test_files Runs.test_done =
  Ok MoreRuns.test_built Runs.test_done.
Proof. by_run. Qed.

Lemma test_built_second :
  pastes MoreRuns.test_built !! 1%nat =
  Some ({| width := 3; height := 2; pixels := [] |}, (0, 102)).
Proof. by_run. Qed.

Lemma pasted_within_width_witness :
  (combine_images MoreRuns.test_files Runs.test_done =
     Ok MoreRuns.test_built Runs.test_done ∧
   pastes MoreRuns.test_built !! 1%nat =
     Some ({| width := 3; height := 2; pixels := [] |}, (0, 102))) ∧
  0 ≤ 0 ∧ 0 + 3 ≤ (size MoreRuns.test_built).1 ∧
  0 ≤ ((size MoreRuns.test_built).1 - (0 + 3)) - 0 ≤ 1.
Proof.
  split; [split; [apply test_built_from_files | apply test_built_second] |].
  apply (pasted_within_width MoreRuns.test_files Runs.test_done
           MoreRuns.test_built Runs.test_done 1
           {| width := 3; height := 2; pixels := [] |} 0 102
           test_built_from_files test_built_second).
Defined.

Lemma demo_heights data img : png_decode data = Some img → 0 ≤ height img.
Proof.
  destruct data as [|a [|b [|c data]]]; try done.
  intros [= <-]. simpl. apply N2Z.is_nonneg.
Qed.

Lemma pasted_within_height_witness :
  ((∀ data img, png_decode data = Some img → 0 ≤ height img) ∧
   combine_images MoreRuns.test_files Runs.test_done =
     Ok MoreRuns.test_built Runs.test_done ∧
   pastes MoreRuns.test_built !! 1%nat =
     Some ({| width := 3; height := 2; pixels := [] |}, (0, 102))) ∧
  0 ≤ 102 ∧ 102 + 2 + 100 ≤ (size MoreRuns.test_built).2 ∧
  (∀ image' x' y',
     pastes MoreRuns.test_built !! 2%nat = Some (image', (x', y')) →
     y' = 102 + 2 + 100) ∧
  (pastes MoreRuns.test_built !! 2%nat = None →
   102 + 2 + 100 = (size MoreRuns.test_built).2).
Proof.
  split.
  - split; [apply demo_heights |].
    split; [apply test_built_from_files | apply test_built_second].
  - apply (pasted_within_height MoreRuns.test_files Runs.test_done
             MoreRuns.test_built Runs.test_done 1
             {| width := 3; height := 2; pixels := [] |} 0 102
             demo_heights test_built_from_files test_built_second).
Defined.

Lemma peak_log :
  scrape_results "peak" Runs.peak_urls (Demo.start []) =
  [("./weather/peak/meteoblue.png", [x05; x01])] ++
  ("./weather/peak/meteoblue.png", [x03; x02]) :: [].
Proof. by_run. Qed.

Lemma peak_completes :
  scrape_and_save "peak" Runs.peak_urls (Demo.start []) = Ok tt Runs.peak_done.
Proof. by_run. Qed.

Lemma site_file_holds_last_witness :
  (scrape_and_save "peak" Runs.peak_urls (Demo.start []) = Ok tt Runs.peak_done ∧
   scrape_results "peak" Runs.peak_urls (Demo.start []) =
     [("./weather/peak/meteoblue.png", [x05; x01])] ++
     ("./weather/peak/meteoblue.png", [x03; x02]) :: [] ∧
   "./weather/peak/meteoblue.png" ∉ ([] : list (string * bytes)).*1) ∧
  w_fs Runs.peak_done !! "./weather/peak/meteoblue.png" = Some (File [x03; x02]).
Proof.
  split.
  - split; [apply peak_completes |]. split; [apply peak_log |].
    apply not_elem_of_nil.
  - apply (site_file_holds_last "peak" Runs.peak_urls (Demo.start [])
             Runs.peak_done _ _ _ [] peak_completes peak_log
             (not_elem_of_nil _)).
Defined.

Lemma valley_fetch :
  scrape_meteoblue "https://www.meteoblue.com/valley" (Demo.start []) =
  Ok [x03; x02] MoreRuns.valley_fetched.
Proof. by_run. Qed.

Lemma meteoblue_waits_for_loaded_witness :
  scrape_meteoblue "https://www.meteoblue.com/valley" (Demo.start []) =
    Ok [x03; x02] MoreRuns.valley_fetched ∧
  ∃ w1 element w2 cls w3 image w4 image_url w5,
    call (find_element (By_CLASS_NAME, "image_lazyload")) w1 = Ok element w2 ∧
    call (get_attribute element "class") w2 = Ok (Some cls) w3 ∧
    Str.occurs_in "loaded" cls ∧
    find_element_by_class_name "image_lazyload" w3 = Ok image w4 ∧
    call (get_attribute image "src") w4 = Ok image_url w5 ∧
    call (urlopen_read image_url) w5 = Ok [x03; x02] MoreRuns.valley_fetched.
Proof.
  split; [apply valley_fetch |].
  apply (meteoblue_waits_for_loaded "https://www.meteoblue.com/valley"
           (Demo.start []) [x03; x02] MoreRuns.valley_fetched valley_fetch).
Defined.

Lemma image_area_found :
  call (find_element (By_ID, "imageArea")) (Demo.start []) =
  Ok "imageArea" (Demo.start []).
Proof. by_run. Qed.

Lemma image_area_no_class :
  call (get_attribute ("imageArea" : element) "class") (Demo.start []) =
  Ok None (Demo.start []).
Proof. by_run. Qed.

Lemma missing_class_attribute_witness :
  (call (find_element (By_ID, "imageArea")) (Demo.start []) =
     Ok "imageArea" (Demo.start []) ∧
   call (get_attribute ("imageArea" : element) "class") (Demo.start []) =
     Ok None (Demo.start [])) ∧
  Element_has_css_class (By_ID, "imageArea") "loaded" (Demo.start []) =
    Raise TypeError (Demo.start []) ∧
  WebDriverWait_until 10 (Element_has_css_class (By_ID, "imageArea") "loaded")
    (Demo.start []) = Raise TypeError (Demo.start []).
Proof.
  split; [split; [apply image_area_found | apply image_area_no_class] |].
  apply (missing_class_attribute (By_ID, "imageArea") "loaded" 10
           (Demo.start []) "imageArea" (Demo.start []) (Demo.start [])
           image_area_found image_area_no_class).
Defined.

(** A configuration that does not parse: the run ends where it started. *)
Example unparsed_configuration :
  main (Demo.start [x09]) = Raise (OtherError "YAMLError") (Demo.start [x09]).
Proof. by_run. Qed.

End more_runs.
